(** * python-distilclient: the client bootstrap, the resource base and the
    product manager, embedded in Rocq.

    Embedded from the sources:
    - [distilclient/__init__.py]  (the API version constants),
    - [distilclient/v2/client.py] ([Client.__init__],
      [check_deprecated_arguments], [_load_extensions], [authenticate],
      [_get_keystone_client]),
    - [distilclient/exceptions.py] ([VersionNotFoundForAPIMethod]).

    Modelled from the specification, their sources being absent:
    - [Resource] of distilclient/common/apiclient/base.py (module [base]),
    - [ProductManager.list] of distilclient/v2/products.py (module
      [products]),
    - [HTTPClient] of distilclient/common/httpclient.py, as the record of
      its constructor arguments (module [httpclient]).

    The identity service (keystoneclient), the session objects and the
    extension classes are outside the repository: they appear as the
    fields of an environment record [Env], each returning either a value
    or an exception.  Every interaction with them is recorded in the
    [calls] log of the world, every [warnings.warn] in its [warnings]
    log. *)

From Stdlib Require Import ZArith String Ascii List Lia Bool.
From stdpp Require Import base option list gmap strings sorting pretty.
Import ListNotations.

Local Open Scope Z_scope.
Local Open Scope string_scope.
Local Open Scope list_scope.

(** ** Python values *)

(** The values that reach the constructor: [None], booleans, integers,
    strings (as byte strings), lists, and references to opaque objects
    (a session, an auth plugin, an extension descriptor, a class).  An
    opaque object is an instance of a class without [__bool__], [__len__]
    or [__eq__]: it is truthy and equal only to itself. *)
#[warnings="-register-all"]
Inductive value : Type :=
| VNone
| VBool (b : bool)
| VInt (z : Z)
| VStr (s : string)
| VList (l : list value)
| VObj (o : nat).

(** Python truth value testing, as used by [if x], [not x], [x or y]. *)
Definition truthy (v : value) : bool :=
  match v with
  | VNone => false
  | VBool b => b
  | VInt z => negb (Z.eqb z 0)
  | VStr s => negb (String.eqb s "")
  | VList l => match l with [] => false | _ :: _ => true end
  | VObj _ => true
  end.

(** [a or b]: the first operand when it is truthy, else the second. *)
Definition py_or (a b : value) : value := if truthy a then a else b.

(** [x is None]. *)
Definition is_None (v : value) : bool :=
  match v with VNone => true | _ => false end.

(** [a == b].  A boolean compares as the integer 0 or 1. *)
Fixpoint py_eq (a b : value) : bool :=
  match a, b with
  | VNone, VNone => true
  | VBool x, VBool y => Bool.eqb x y
  | VBool x, VInt y => Z.eqb (if x then 1 else 0) y
  | VInt x, VBool y => Z.eqb x (if y then 1 else 0)
  | VInt x, VInt y => Z.eqb x y
  | VStr x, VStr y => String.eqb x y
  | VList x, VList y =>
      (fix go (x y : list value) : bool :=
         match x, y with
         | [], [] => true
         | a :: x', b :: y' => py_eq a b && go x' y'
         | _, _ => false
         end) x y
  | VObj x, VObj y => Nat.eqb x y
  | _, _ => false
  end.

(** ** Strings *)

(** [str.lower] on a byte: the letters A..Z move to a..z. *)
Definition lower_ascii (c : ascii) : ascii :=
  let n := nat_of_ascii c in
  if (Nat.leb 65 n && Nat.leb n 90)%bool then ascii_of_nat (n + 32) else c.

Fixpoint lower (s : string) : string :=
  match s with
  | EmptyString => EmptyString
  | String c s' => String (lower_ascii c) (lower s')
  end.

(** [s.split(sep)[0]]: the part of [s] before the first occurrence of
    [sep], all of [s] when [sep] does not occur. *)
Fixpoint split_head (sep s : string) : string :=
  if String.prefix sep s then EmptyString
  else match s with
       | EmptyString => EmptyString
       | String c s' => String c (split_head sep s')
       end.

(** [sep.join(l)]. *)
Fixpoint join (sep : string) (l : list string) : string :=
  match l with
  | [] => ""
  | [x] => x
  | x :: rest => x +:+ sep +:+ join sep rest
  end.

(** ** distilclient/__init__.py *)

Definition API_MAX_VERSION : string := "1".
Definition API_MIN_VERSION : string := "2".
Definition API_DEPRECATED_VERSION : list string := [].

(** ** Exceptions, the world, and the monad of the constructor *)

Inductive exn : Type :=
| ClientException (msg : string)     (* distilclient.exceptions.ClientException *)
| CommandError (msg : string)        (* distilclient.exceptions.CommandError *)
| RuntimeError (msg : string)
| AttributeError (msg : string)
| TypeError (msg : string)
| External (what : string).          (* raised by a collaborator *)

Inductive outcome (A : Type) : Type :=
| Ok (a : A)
| Raise (e : exn).
Arguments Ok {A} a.
Arguments Raise {A} e.

(** An interaction with a collaborator outside the process. *)
Inductive call : Type :=
| CallGetToken (session auth : value)
| CallGetEndpoint (auth service_type : value)
| CallDiscover (auth_url : value)
| CallUrlFor (version : string)
| CallKeystoneClient (version : Z * Z)
| CallAuthenticate
| CallGetEndpoints (service_type : value)
| CallManagerClass (manager_class : value).

Record World : Type := mkWorld {
  warnings : list string;     (* messages given to warnings.warn, oldest first *)
  calls : list call           (* interactions, oldest first *)
}.

Definition M (A : Type) : Type := World -> outcome A * World.

Definition run {A} (m : M A) (w : World) : outcome A * World := m w.

#[export] Instance M_ret : MRet M := fun A a w => (Ok a, w).
#[export] Instance M_bind : MBind M := fun A B f m w =>
  match m w with
  | (Ok a, w') => f a w'
  | (Raise e, w') => (Raise e, w')
  end.

Definition raise {A} (e : exn) : M A := fun w => (Raise e, w).

Definition warn (msg : string) : M unit :=
  fun w => (Ok tt, mkWorld (warnings w ++ [msg]) (calls w)).

(** Perform an interaction: log it, then return or raise what the
    collaborator answers. *)
Definition perform {A} (c : call) (answer : outcome A) : M A :=
  fun w => (answer, mkWorld (warnings w) (calls w ++ [c])).

Definition when_ (b : bool) (m : M unit) : M unit :=
  if b then m else mret tt.

Definition empty_world : World := mkWorld [] [].

(** [for x in l: body x]. *)
Fixpoint for_ {A} (l : list A) (body : A -> M unit) : M unit :=
  match l with
  | [] => mret tt
  | x :: rest => body x ;; for_ rest body
  end.

(** ** Dictionaries *)

(** A Python [dict] with string keys is a [gmap string _].
    [d.get(key, default)] with a string key: *)
Definition dict_get {A} (d : gmap string A) (key : string) (dflt : A) : A :=
  default dflt (d !! key).

(** ** The invocation of [Client.__init__] *)

(** An invocation is the finite map from argument names to the values
    supplied for them, positionally or by keyword (Python rejects, before
    the body runs, a call that binds one parameter twice).  A parameter
    that is not supplied takes the default of the signature; a name that
    is no parameter lands in [**kwargs]. *)
Definition param (args : gmap string value) (name : string) (dflt : value) : value :=
  default dflt (args !! name).

Definition parameter_names : list string :=
  [ "username"; "api_key"; "project_id"; "auth_url"; "insecure"; "timeout";
    "tenant_id"; "project_name"; "region_name"; "endpoint_type"; "extensions";
    "service_type"; "service_name"; "retries"; "http_log_debug";
    "input_auth_token"; "session"; "auth"; "cacert"; "distil_url";
    "user_agent"; "use_keyring"; "force_new_token"; "cached_token_lifetime";
    "api_version"; "user_id"; "user_domain_id"; "user_domain_name";
    "project_domain_id"; "project_domain_name"; "cert"; "password" ].

(** The parameters of the signature (client.py, lines 55-72), each with
    its default. *)
Module Arg.
Definition username args := param args "username" VNone.
Definition api_key args := param args "api_key" VNone.
Definition project_id args := param args "project_id" VNone.
Definition auth_url args := param args "auth_url" VNone.
Definition insecure args := param args "insecure" (VBool false).
Definition timeout args := param args "timeout" VNone.
Definition tenant_id args := param args "tenant_id" VNone.
Definition project_name args := param args "project_name" VNone.
Definition region_name args := param args "region_name" VNone.
Definition endpoint_type args := param args "endpoint_type" (VStr "publicURL").
Definition extensions args := param args "extensions" VNone.
Definition service_type args := param args "service_type" (VStr "rating").
Definition service_name args := param args "service_name" VNone.
Definition retries args := param args "retries" VNone.
Definition http_log_debug args := param args "http_log_debug" (VBool false).
Definition input_auth_token args := param args "input_auth_token" VNone.
Definition session args := param args "session" VNone.
Definition auth args := param args "auth" VNone.
Definition cacert args := param args "cacert" VNone.
Definition distil_url args := param args "distil_url" VNone.
Definition user_agent args := param args "user_agent" (VStr "python-distilclient").
Definition use_keyring args := param args "use_keyring" (VBool false).
Definition force_new_token args := param args "force_new_token" (VBool false).
Definition cached_token_lifetime args := param args "cached_token_lifetime" (VInt 300).
Definition api_version args := param args "api_version" (VStr "2").
Definition user_id args := param args "user_id" VNone.
Definition user_domain_id args := param args "user_domain_id" VNone.
Definition user_domain_name args := param args "user_domain_name" VNone.
Definition project_domain_id args := param args "project_domain_id" VNone.
Definition project_domain_name args := param args "project_domain_name" VNone.
Definition cert args := param args "cert" VNone.
Definition password args := param args "password" VNone.

(** [**kwargs]: what was supplied under a name that is no parameter. *)
Definition kwargs (args : gmap string value) : gmap string value :=
  filter (fun kv => kv.1 ∉ parameter_names) args.
End Arg.

(** ** Collaborators *)

(** [keystoneclient.session.Session(verify=..., cert=...)]. *)
Record Session : Type := mkSession {
  verify : value;
  session_cert : value
}.

(** The arguments of [ks_client.Client(session=..., version=...,
    auth_url=..., **keywords)]. *)
Record KeystoneArgs : Type := mkKeystoneArgs {
  ks_session : Session;
  version : Z * Z;
  ks_auth_url : value;
  ks_keywords : list (string * value)
}.

(** What the constructor uses of a keystone client. *)
Record KeystoneClient : Type := mkKeystoneClient {
  authenticate : outcome unit;
  auth_token : value;
  (* service_catalog.get_endpoints(service_type) *)
  get_endpoints : value -> outcome (gmap string (list (gmap string value)));
  (* session.get_endpoint(auth, interface=, service_type=, region_name=) *)
  get_endpoint : value -> value -> value -> value -> outcome value
}.

(** [self.keystone_client], when it is not [None]. *)
Inductive keystone : Type :=
| LegacyJsonAdapter
    (session auth interface service_type service_name region_name : value)
| Keystone (kc : KeystoneClient).

Record Env : Type := mkEnv {
  (* session.get_token(auth), for a session supplied by the caller *)
  session_get_token : value -> value -> outcome value;
  (* session.get_endpoint(auth, interface=, service_type=, region_name=) *)
  session_get_endpoint :
    value -> value -> value -> value -> value -> outcome value;
  (* discover.Discover(session=, auth_url=), giving its url_for *)
  discover_Discover : Session -> value -> outcome (string -> outcome value);
  (* ks_client.Client(...) *)
  ks_client_Client : KeystoneArgs -> outcome KeystoneClient;
  (* getattr(extension, name) on an extension descriptor *)
  extension_attr : nat -> string -> outcome value;
  (* manager_class(self) *)
  instantiate : value -> outcome value
}.

(** An answer that costs no interaction (attribute access). *)
Definition lift {A} (o : outcome A) : M A := fun w => (o, w).

(** ** distilclient/v2/client.py *)

(** The attributes assigned to [self] in lines 75-98. *)
Record Attrs : Type := mkAttrs {
  username : value;
  password : value;
  tenant_id : value;
  tenant_name : value;
  user_id : value;
  project_id : value;
  project_name : value;
  user_domain_id : value;
  user_domain_name : value;
  project_domain_id : value;
  project_domain_name : value;
  endpoint_type : value;
  auth_url : value;
  region_name : value;
  cacert : value;
  cert : value;
  insecure : value;
  use_keyring : value;
  force_new_token : value;
  cached_token_lifetime : value
}.

(** Lines 75-98. *)
Definition initial_attrs (args : gmap string value) : Attrs :=
  {| username := Arg.username args;
     password := py_or (Arg.password args) (Arg.api_key args);
     tenant_id := py_or (Arg.tenant_id args) (Arg.project_id args);
     tenant_name := Arg.project_name args;
     user_id := Arg.user_id args;
     project_id := py_or (Arg.project_id args) (Arg.tenant_id args);
     project_name := Arg.project_name args;
     user_domain_id := Arg.user_domain_id args;
     user_domain_name := Arg.user_domain_name args;
     project_domain_id := Arg.project_domain_id args;
     project_domain_name := Arg.project_domain_name args;
     endpoint_type := Arg.endpoint_type args;
     auth_url := Arg.auth_url args;
     region_name := Arg.region_name args;
     cacert := Arg.cacert args;
     cert := Arg.cert args;
     insecure := Arg.insecure args;
     use_keyring := Arg.use_keyring args;
     force_new_token := Arg.force_new_token args;
     cached_token_lifetime := Arg.cached_token_lifetime args |}.

(** [self.project_id = v]. *)
Definition set_project_id (self : Attrs) (v : value) : Attrs :=
  {| username := username self; password := password self;
     tenant_id := tenant_id self; tenant_name := tenant_name self;
     user_id := user_id self; project_id := v;
     project_name := project_name self;
     user_domain_id := user_domain_id self;
     user_domain_name := user_domain_name self;
     project_domain_id := project_domain_id self;
     project_domain_name := project_domain_name self;
     endpoint_type := endpoint_type self; auth_url := auth_url self;
     region_name := region_name self; cacert := cacert self;
     cert := cert self; insecure := insecure self;
     use_keyring := use_keyring self;
     force_new_token := force_new_token self;
     cached_token_lifetime := cached_token_lifetime self |}.

(** Lines 103-109, in the order of the dict literal. *)
Definition deprecated : list (string * option string) :=
  [ ("share_service_name", Some "service_name");
    ("proxy_tenant_id", None);
    ("proxy_token", None);
    ("os_cache", Some "use_keyring");
    ("api_key", Some "password") ].

(** Lines 115-123. *)
Definition deprecation_message (arg : string) (replacement : option string) : string :=
  let replacement_msg :=
    match replacement with
    | Some r => " Use " +:+ r +:+ " instead."
    | None => ""
    end in
  "Argument " +:+ arg +:+ " is deprecated." +:+ replacement_msg.

(** Lines 102-124: the nested function reads the [kwargs] of the
    constructor. *)
Definition check_deprecated_arguments (kwargs : gmap string value) : M unit :=
  for_ deprecated (fun '(arg, replacement) =>
    if is_None (dict_get kwargs arg VNone) then mret tt
    else warn (deprecation_message arg replacement)).

(** Lines 224-228: the session of the keystone client. *)
Definition keystone_session (self : Attrs) : Session :=
  let verify :=
    if truthy (insecure self) then VBool false
    else py_or (cacert self) (VBool true) in
  mkSession verify (cert self).

(** Lines 240-253: the arguments of the version 3 client. *)
Definition v3_arguments (self : Attrs) (ks_session : Session)
    (v3_auth_url : value) : KeystoneArgs :=
  mkKeystoneArgs ks_session (3, 0) v3_auth_url
    [ ("username", username self);
      ("password", password self);
      ("user_id", user_id self);
      ("user_domain_name", user_domain_name self);
      ("user_domain_id", user_domain_id self);
      ("project_id", py_or (project_id self) (tenant_id self));
      ("project_name", project_name self);
      ("project_domain_name", project_domain_name self);
      ("project_domain_id", project_domain_id self);
      ("region_name", region_name self) ].

(** Lines 255-267: the arguments of the version 2 client. *)
Definition v2_arguments (self : Attrs) (ks_session : Session)
    (v2_auth_url : value) : KeystoneArgs :=
  mkKeystoneArgs ks_session (2, 0) v2_auth_url
    [ ("username", username self);
      ("password", password self);
      ("tenant_id", tenant_id self);
      ("tenant_name", tenant_name self);
      ("region_name", region_name self);
      ("cert", cert self);
      ("use_keyring", use_keyring self);
      ("force_new_token", force_new_token self);
      ("stale_duration", cached_token_lifetime self) ].

(** Lines 222-273. *)
Definition _get_keystone_client (env : Env) (self : Attrs) : M KeystoneClient :=
  let ks_session := keystone_session self in
  url_for ← perform (CallDiscover (auth_url self))
              (discover_Discover env ks_session (auth_url self));
  v2_auth_url ← perform (CallUrlFor "v2.0") (url_for "v2.0");
  v3_auth_url ← perform (CallUrlFor "v3.0") (url_for "v3.0");
  keystone_client ←
    (if truthy v3_auth_url then
       perform (CallKeystoneClient (3, 0))
         (ks_client_Client env (v3_arguments self ks_session v3_auth_url))
     else if truthy v2_auth_url then
       perform (CallKeystoneClient (2, 0))
         (ks_client_Client env (v2_arguments self ks_session v2_auth_url))
     else
       raise (CommandError
         "Unable to determine the Keystone version to authenticate with using the given auth_url."));
  perform CallAuthenticate (authenticate keystone_client) ;;
  mret keystone_client.

(** Modelled from the spec: the class [HTTPClient] of
    distilclient/common/httpclient.py, "the HTTP transport with the
    resolved token, URL, and transport options (TLS verification, retries,
    request logging, API version header)".  The transport is kept as the
    arguments it is constructed with in lines 182-190. *)
Module httpclient.
Record HTTPClient : Type := mkHTTPClient {
  endpoint_url : value;
  auth_token : value;
  user_agent : value;
  insecure : value;
  cacert : value;
  timeout : value;
  retries : value;
  http_log_debug : value;
  api_version : value
}.
End httpclient.

(** The managers of lines 192-197; each only keeps the client. *)
Inductive Manager : Type :=
| MeasurementManager
| InvoiceManager
| QuotationManager
| CreditManager
| ProductManager
| HealthManager.

(** A constructed client, as the assignments that made it: the fields
    are the values that [__init__] assigns by name (lines 75-197), and
    [extension_attrs] holds the assignments that [setattr] makes after
    them in [_load_extensions] (line 207).  An attribute of the finished
    object is the value of the last assignment to its name: it is read
    with [getattr], from [Client_dict] below, where an assignment of line
    207 replaces the one made by name. *)
Record Client : Type := mkClient {
  attrs : Attrs;
  keystone_client : option keystone;
  session : value;
  api_version : value;
  client : httpclient.HTTPClient;
  measurements : Manager;
  invoices : Manager;
  quotations : Manager;
  credits : Manager;
  products : Manager;
  health : Manager;
  extension_attrs : gmap string value
}.

(** [getattr(obj, name)] on an element of [extensions]. *)
Definition getattr_ (env : Env) (obj : value) (name : string) : M value :=
  match obj with
  | VObj o => lift (extension_attr env o name)
  | _ => raise (AttributeError name)
  end.

(** The loop of lines 205-207; [set] holds the assignments that
    [setattr] has made so far, the later one replacing the earlier one of
    the same name.  [Client_dict] lays them over the attributes assigned
    by name, and [load_each_in_place] is the same loop on the dictionary
    of the object itself. *)
Fixpoint load_each (env : Env) (extensions : list value)
    (set : gmap string value) : M (gmap string value) :=
  match extensions with
  | [] => mret set
  | extension :: rest =>
      manager_class ← getattr_ env extension "manager_class";
      if truthy manager_class then
        name ← getattr_ env extension "name";
        mgr ← perform (CallManagerClass manager_class)
                (instantiate env manager_class);
        match name with
        | VStr n => load_each env rest (<[n := mgr]> set)
        | _ => raise (TypeError "attribute name must be string")
        end
      else load_each env rest set
  end.

(** Lines 201-207. *)
Definition _load_extensions (env : Env) (extensions : value) : M (gmap string value) :=
  if negb (truthy extensions) then mret ∅
  else
    match extensions with
    | VList l => load_each env l ∅
    | VStr _ => raise (AttributeError "manager_class")
    | _ => raise (TypeError "object is not iterable")
    end.

(** Lines 166-168: the test on the interface of a catalog entry. *)
Definition interface_matches (endpoint_type : string)
    (catalog_entry : gmap string value) : bool :=
  py_eq (dict_get catalog_entry "interface" VNone)
        (VStr (split_head "url" (lower endpoint_type)))
  || truthy (dict_get catalog_entry endpoint_type VNone).

(** Lines 169-172: the test that makes the loop [continue]. *)
Definition region_differs (region_name : value)
    (catalog_entry : gmap string value) : bool :=
  truthy region_name &&
  negb (py_eq region_name
          (dict_get catalog_entry "region"
             (dict_get catalog_entry "region_id" VNone))).

(** Lines 174-175. *)
Definition entry_url (endpoint_type : string)
    (catalog_entry : gmap string value) : value :=
  dict_get catalog_entry "url" (dict_get catalog_entry endpoint_type VNone).

(** The loop of lines 165-176; [distil_url] is the value the variable has
    before the loop. *)
Fixpoint scan_catalog (endpoint_type : string) (region_name : value)
    (entries : list (gmap string value)) (distil_url : value) : value :=
  match entries with
  | [] => distil_url
  | catalog_entry :: rest =>
      if interface_matches endpoint_type catalog_entry then
        if region_differs region_name catalog_entry
        then scan_catalog endpoint_type region_name rest distil_url   (* continue *)
        else entry_url endpoint_type catalog_entry                    (* break *)
      else scan_catalog endpoint_type region_name rest distil_url
  end.

(** [d.get(key, default)] when the key is any value: a list is not
    hashable, and no key of these dictionaries is anything but a string. *)
Definition value_get {A} (d : gmap string A) (key : value) (dflt : A) : M A :=
  match key with
  | VStr k => mret (dict_get d k dflt)
  | VList _ => raise (TypeError "unhashable type: 'list'")
  | _ => mret dflt
  end.

(** Lines 159-161. *)
Definition endpoint_of_session (env : Env) (keystone_client : option keystone)
    (auth endpoint_type service_type region_name : value) : M value :=
  match keystone_client with
  | None => raise (AttributeError "session")
  | Some (LegacyJsonAdapter session _ _ _ _ _) =>
      perform (CallGetEndpoint auth service_type)
        (session_get_endpoint env session auth endpoint_type service_type
           region_name)
  | Some (Keystone kc) =>
      perform (CallGetEndpoint auth service_type)
        (get_endpoint kc auth endpoint_type service_type region_name)
  end.

(** Lines 163-176. *)
Definition endpoint_of_catalog (keystone_client : option keystone)
    (endpoint_type service_type region_name distil_url : value) : M value :=
  catalog ←
    match keystone_client with
    | Some (Keystone kc) =>
        perform (CallGetEndpoints service_type) (get_endpoints kc service_type)
    | _ => raise (AttributeError "service_catalog")
    end;
  entries ← value_get catalog service_type [];
  match entries, endpoint_type with
  | [], _ => mret distil_url
  | _ :: _, VStr et => mret (scan_catalog et region_name entries distil_url)
  | _ :: _, _ => raise (AttributeError "lower")
  end.

(** [Client.__init__], lines 75-153: the attributes, the deprecation
    warnings, the token guard, and the token.  Returns [self] so far,
    [self.keystone_client] and [input_auth_token]. *)
Definition credential_resolution (env : Env) (args : gmap string value)
    : M (Attrs * option keystone * value) :=
  let self := initial_attrs args in
  let service_name :=
    dict_get (Arg.kwargs args) "share_service_name" (Arg.service_name args) in
  check_deprecated_arguments (Arg.kwargs args) ;;
  when_ (truthy (Arg.input_auth_token args) && negb (truthy (Arg.distil_url args)))
    (raise (ClientException
       "For token-based authentication you should provide 'input_auth_token' and 'distil_url'.")) ;;
  let self :=
    set_project_id self
      (if negb (is_None (Arg.tenant_id args)) then Arg.tenant_id args
       else Arg.project_id args) in
  if negb (truthy (Arg.input_auth_token args)) then
    if truthy (Arg.session args) then
      let keystone_client :=
        LegacyJsonAdapter (Arg.session args) (Arg.auth args)
          (Arg.endpoint_type args) (Arg.service_type args) service_name
          (Arg.region_name args) in
      input_auth_token ← perform (CallGetToken (Arg.session args) (Arg.auth args))
                            (session_get_token env (Arg.session args) (Arg.auth args));
      mret (self, Some keystone_client, input_auth_token)
    else
      kc ← _get_keystone_client env self;
      mret (self, Some (Keystone kc), auth_token kc)
  else mret (self, None, Arg.input_auth_token args).

(** [Client.__init__], lines 75-176: the above, the token check, and the
    endpoint.  Returns in addition [distil_url]. *)
Definition endpoint_resolution (env : Env) (args : gmap string value)
    : M (Attrs * option keystone * value * value) :=
  '(self, keystone_client, input_auth_token) ← credential_resolution env args;
  when_ (negb (truthy input_auth_token)) (raise (RuntimeError "Not Authorized")) ;;
  distil_url ←
    (if truthy (Arg.session args) && negb (truthy (Arg.distil_url args)) then
       endpoint_of_session env keystone_client (Arg.auth args)
         (Arg.endpoint_type args) (Arg.service_type args) (Arg.region_name args)
     else if negb (truthy (Arg.distil_url args)) then
       endpoint_of_catalog keystone_client (Arg.endpoint_type args)
         (Arg.service_type args) (Arg.region_name args) (Arg.distil_url args)
     else mret (Arg.distil_url args));
  mret (self, keystone_client, input_auth_token, distil_url).

(** [Client.__init__], whole (lines 55-199). *)
Definition Client_init (env : Env) (args : gmap string value) : M Client :=
  '(self, keystone_client, input_auth_token, distil_url) ← endpoint_resolution env args;
  when_ (negb (truthy distil_url))
    (raise (RuntimeError "Could not find Distil endpoint in catalog")) ;;
  let api_version := Arg.api_version args in
  let client :=
    httpclient.mkHTTPClient distil_url input_auth_token (Arg.user_agent args)
      (Arg.insecure args) (Arg.cacert args) (Arg.timeout args)
      (Arg.retries args) (Arg.http_log_debug args) api_version in
  set ← _load_extensions env (Arg.extensions args);
  mret {| attrs := self;
          keystone_client := keystone_client;
          session := Arg.session args;
          api_version := api_version;
          client := client;
          measurements := MeasurementManager;
          invoices := InvoiceManager;
          quotations := QuotationManager;
          credits := CreditManager;
          products := ProductManager;
          health := HealthManager;
          extension_attrs := set |}.

(** Lines 209-220: [Client.authenticate]. *)
Definition Client_authenticate (self : Client) : M unit :=
  warn "authenticate() method is deprecated. Client automatically makes authentication call in the constructor.".

(** ** distilclient/exceptions.py *)

Module exceptions.

(** [VersionNotFoundForAPIMethod(version)]: the exception keeps the
    version it is given, whatever object that is. *)
Record VersionNotFoundForAPIMethod : Type := mkVersionNotFoundForAPIMethod {
  version : value
}.

(** [msg_fmt % {"vers": self.version}]; [str] is the builtin that [%s]
    applies to the version. *)
Definition __str__ (str : value -> string)
    (self : VersionNotFoundForAPIMethod) : string :=
  "API version '" +:+ str (version self) +:+ "' is not supported.".

End exceptions.

(** ** distilclient/common/apiclient/base.py: [Resource] *)

(** Decidable equality of values, by recursion through the list case. *)
#[export] Instance value_eq_dec : EqDecision value.
Proof.
  refine (fix IH (a b : value) {struct a} : Decision (a = b) :=
    match a, b with
    | VNone, VNone => left eq_refl
    | VBool x, VBool y => cast_if (decide (x = y))
    | VInt x, VInt y => cast_if (decide (x = y))
    | VStr x, VStr y => cast_if (decide (x = y))
    | VList x, VList y =>
        cast_if ((fix go (x y : list value) {struct x} : Decision (x = y) :=
           match x, y with
           | [], [] => left eq_refl
           | a :: x', b :: y' => cast_if_and (IH a b) (go x' y')
           | _, _ => right _
           end) x y)
    | VObj x, VObj y => cast_if (decide (x = y))
    | _, _ => right _
    end); unfold Decision in *; try congruence.
Defined.

Module base.
Section Resource.

(** The values of the fields ("string, number, nested mapping, or list"):
    any type with a decidable equality. *)
Context {V : Type} `{EqDecision V}.

(** Modelled from the spec: the class [Resource] of
    distilclient/common/apiclient/base.py, of which the repository
    sources here hold only the unit test (tests/unit/test_base.py).  A
    resource is constructed from "a (possibly null) owning-manager
    reference, and a mapping of field name to value"; [class_name] is the
    name of its class. *)
Record Resource : Type := mkResource {
  class_name : string;
  manager : option Manager;
  _info : gmap string V
}.

(** Modelled from the spec: "identity = optional [id] field if present in
    its backing data". *)
Definition identifier (r : Resource) : option V := _info r !! "id".

(** Modelled from the spec: [Resource.__eq__], "Two Resources are equal
    iff both have the same identifier (when both define one) or identical
    backing mappings (when neither does); if one has an identifier and the
    other does not, they compare unequal." *)
Definition Resource_eq (r1 r2 : Resource) : bool :=
  match identifier r1, identifier r2 with
  | Some i1, Some i2 => bool_decide (i1 = i2)
  | None, None => bool_decide (_info r1 = _info r2)
  | _, _ => false
  end.

(** Modelled from the spec: [Resource.__ne__], "must also define a
    consistent inequality". *)
Definition Resource_ne (r1 r2 : Resource) : bool := negb (Resource_eq r1 r2).

(** How a field value prints under [%s]. *)
Variable str : V -> string.

(** Modelled from the spec: the field names "sorted alphabetically",
    that is, by the order of strings. *)
Definition reprkeys (r : Resource) : list string :=
  merge_sort String.le (map_to_list (_info r)).*1.

(** One field, as [name=value]. *)
Definition field_repr (r : Resource) (k : string) : option string :=
  (fun v => k +:+ "=" +:+ str v) <$> _info r !! k.

(** Modelled from the spec: [Resource.__repr__], "attribute names sorted
    alphabetically, rendered as <ClassName field1=value1, field2=value2>". *)
Definition Resource_repr (r : Resource) : string :=
  let info := join ", " (omap (field_repr r) (reprkeys r)) in
  "<" +:+ class_name r +:+ " " +:+ info +:+ ">".

End Resource.
End base.

(** ** distilclient/v2/products.py: [ProductManager.list] *)

Module products.

(** Modelled from the spec: the arguments with which a manager method
    calls [Manager._list(url, response_key)] of distilclient/base.py; of
    both files the repository sources here hold only the unit test
    (tests/unit/v2/test_products.py). *)
Record list_request : Type := mkListRequest {
  url : string;
  response_key : string
}.

(** Modelled from the spec: "optional filter arguments (e.g., a list of
    region identifiers) are serialized as a single comma-joined query
    parameter appended to the URL with ?name=v1,v2; absent or empty filters
    omit the parameter entirely".  [None] is an absent filter. *)
Definition with_filter (path name : string) (filter : option (list string)) : string :=
  match filter with
  | None | Some [] => path
  | Some values => path +:+ "?" +:+ name +:+ "=" +:+ join "," values
  end.

(** Modelled from the spec: [ProductManager.list(regions)] of
    distilclient/v2/products.py, a request to the collection path
    /v2/products whose answer holds the collection under the key
    "products". *)
Definition ProductManager_list (regions : option (list string)) : list_request :=
  mkListRequest (with_filter "/v2/products" "regions" regions) "products".

End products.

(** ** Derived definitions used in the statements *)

(** The messages that [check_deprecated_arguments] passes to
    [warnings.warn], in order. *)
Definition deprecation_warnings (kwargs : gmap string value) : list string :=
  omap (fun '(arg, replacement) =>
          if is_None (dict_get kwargs arg VNone) then None
          else Some (deprecation_message arg replacement))
       deprecated.

(** The test of lines 166-173 on one catalog entry: the entry is the one
    the loop stops at. *)
Definition entry_selected (endpoint_type : string) (region_name : value)
    (catalog_entry : gmap string value) : bool :=
  interface_matches endpoint_type catalog_entry
  && negb (region_differs region_name catalog_entry).

(** [self] as it is from line 133 on. *)
Definition resolved_attrs (args : gmap string value) : Attrs :=
  set_project_id (initial_attrs args)
    (if negb (is_None (Arg.tenant_id args)) then Arg.tenant_id args
     else Arg.project_id args).

(** The world after [events] have been appended to the log of
    interactions. *)
Definition after_calls (w : World) (events : list call) : World :=
  mkWorld (warnings w) (calls w ++ events).

(** The world after the deprecation warnings of an invocation. *)
Definition after_warnings (w : World) (args : gmap string value) : World :=
  mkWorld (warnings w ++ deprecation_warnings (Arg.kwargs args)) (calls w).

(** The message of the exception of lines 269-271. *)
Definition keystone_version_message : string :=
  "Unable to determine the Keystone version to authenticate with using the given auth_url.".

(** The message of the exception of lines 129-131. *)
Definition token_guard_message : string :=
  "For token-based authentication you should provide 'input_auth_token' and 'distil_url'.".

(** ** Sample environments and invocations *)

(** An environment in which every collaborator raises. *)
Definition failing_env : Env :=
  {| session_get_token := fun _ _ => Raise (External "get_token");
     session_get_endpoint := fun _ _ _ _ _ => Raise (External "get_endpoint");
     discover_Discover := fun _ _ => Raise (External "Discover");
     ks_client_Client := fun _ => Raise (External "Client");
     extension_attr := fun _ _ => Raise (External "getattr");
     instantiate := fun _ => Raise (External "manager_class") |}.


(** [Client(input_auth_token='token')]. *)
Definition token_only_args : gmap string value :=
  list_to_map [ ("input_auth_token", VStr "token") ].


(** [Client(api_key='secret', input_auth_token='token',
    distil_url='http://distil')]. *)
Definition api_key_args : gmap string value :=
  list_to_map
    [ ("api_key", VStr "secret");
      ("input_auth_token", VStr "token");
      ("distil_url", VStr "http://distil") ].

(** [Client(os_cache=True, input_auth_token='token',
    distil_url='http://distil')]. *)
Definition os_cache_args : gmap string value :=
  list_to_map
    [ ("os_cache", VBool true);
      ("input_auth_token", VStr "token");
      ("distil_url", VStr "http://distil") ].

(** The catalog of the sample identity service: three endpoints of the
    rating service. *)
Definition sample_catalog : gmap string (list (gmap string value)) :=
  list_to_map
    [ ("rating",
       [ list_to_map [ ("interface", VStr "admin"); ("region", VStr "nz-por-1");
                       ("url", VStr "http://admin.por") ];
         list_to_map [ ("interface", VStr "public"); ("region", VStr "nz-hlz-1");
                       ("url", VStr "http://distil.hlz") ];
         list_to_map [ ("interface", VStr "public"); ("region", VStr "nz-por-1");
                       ("url", VStr "http://distil.por") ];
         list_to_map [ ("interface", VStr "public"); ("region", VStr "nz-por-1");
                       ("url", VStr "http://other.por") ] ]) ].

(** The keystone client of the sample identity service. *)
Definition sample_keystone : KeystoneClient :=
  {| authenticate := Ok tt;
     auth_token := VStr "token";
     get_endpoints := fun _ => Ok sample_catalog;
     get_endpoint := fun _ _ _ _ => Raise (External "get_endpoint") |}.

(** An identity service that speaks the versions for which [url_for]
    gives a URL. *)
Definition identity_env (url_for : string -> outcome value) : Env :=
  {| session_get_token := fun _ _ => Raise (External "get_token");
     session_get_endpoint := fun _ _ _ _ _ => Raise (External "get_endpoint");
     discover_Discover := fun _ _ => Ok url_for;
     ks_client_Client := fun _ => Ok sample_keystone;
     extension_attr := fun _ _ => Raise (External "getattr");
     instantiate := fun _ => Raise (External "manager_class") |}.

(** Both versions. *)
Definition both_versions (v : string) : outcome value :=
  if String.eqb v "v3.0" then Ok (VStr "http://keystone/v3")
  else if String.eqb v "v2.0" then Ok (VStr "http://keystone/v2.0")
  else Ok VNone.

(** No version. *)
Definition no_version (v : string) : outcome value := Ok VNone.

(** [Client(username='demo', password='pass', auth_url='http://keystone',
    region_name='nz-por-1')]. *)
Definition password_login_args : gmap string value :=
  list_to_map
    [ ("username", VStr "demo");
      ("password", VStr "pass");
      ("auth_url", VStr "http://keystone");
      ("region_name", VStr "nz-por-1") ].

(** The same in a region without endpoint. *)
Definition unknown_region_args : gmap string value :=
  <["region_name" := VStr "nz-wlg-2"]> password_login_args.

(** The resources of tests/unit/test_base.py. *)
Definition repr_resource : @base.Resource string :=
  base.mkResource "Resource" None
    (list_to_map [ ("foo", "bar"); ("baz", "spam") ]).

Definition hi_resource : @base.Resource value :=
  base.mkResource "Resource" None
    (list_to_map [ ("id", VInt 1); ("name", VStr "hi") ]).

Definition hello_resource : @base.Resource value :=
  base.mkResource "Resource" None
    (list_to_map [ ("id", VInt 1); ("name", VStr "hello") ]).

Definition joe_resource : @base.Resource value :=
  base.mkResource "Resource" None
    (list_to_map [ ("name", VStr "joe"); ("age", VInt 12) ]).

(** The fields of a resource as pairs, in the order of [reprkeys]. *)
Definition sorted_fields {V : Type} (r : @base.Resource V) : list (string * V) :=
  omap (fun k => (fun v => (k, v)) <$> base._info r !! k) (base.reprkeys r).

(** Only the older version. *)
Definition only_v2 (v : string) : outcome value :=
  if String.eqb v "v2.0" then Ok (VStr "http://keystone/v2.0") else Ok VNone.

(** A session that has no token to give. *)
Definition tokenless_env : Env :=
  {| session_get_token := fun _ _ => Ok VNone;
     session_get_endpoint := fun _ _ _ _ _ => Ok (VStr "http://distil");
     discover_Discover := fun _ _ => Raise (External "Discover");
     ks_client_Client := fun _ => Raise (External "Client");
     extension_attr := fun _ _ => Raise (External "getattr");
     instantiate := fun _ => Raise (External "manager_class") |}.


(** ** Definitions for the further properties *)

(** A computation that, however it ends, has given exactly [ws] to
    [warnings.warn] and has had only interactions that satisfy [P]. *)
Definition logs {A} (ws : list string) (P : call -> Prop) (m : M A) : Prop :=
  forall w r w',
    run m w = (r, w') ->
    warnings w' = warnings w ++ ws
    /\ exists evs, calls w' = calls w ++ evs /\ Forall P evs.

(** The interactions that the branches of [Client.__init__] allow for an
    invocation (lines 140-153, 158-164, 199). *)
Definition permitted (args : gmap string value) (c : call) : bool :=
  let token := truthy (Arg.input_auth_token args) in
  let sess := truthy (Arg.session args) in
  let url := truthy (Arg.distil_url args) in
  match c with
  | CallGetToken s a =>
      negb token && sess
      && bool_decide (s = Arg.session args) && bool_decide (a = Arg.auth args)
  | CallGetEndpoint a st =>
      negb token && sess && negb url
      && bool_decide (a = Arg.auth args)
      && bool_decide (st = Arg.service_type args)
  | CallDiscover u =>
      negb token && negb sess && bool_decide (u = Arg.auth_url args)
  | CallUrlFor v =>
      negb token && negb sess && (String.eqb v "v2.0" || String.eqb v "v3.0")
  | CallKeystoneClient v =>
      negb token && negb sess
      && (bool_decide (v = (2, 0)) || bool_decide (v = (3, 0)))
  | CallAuthenticate => negb token && negb sess
  | CallGetEndpoints st =>
      negb token && negb sess && negb url
      && bool_decide (st = Arg.service_type args)
  | CallManagerClass mc => truthy mc && truthy (Arg.extensions args)
  end.

(** [self.keystone_client] of lines 142-148. *)
Definition session_adapter (args : gmap string value) : keystone :=
  LegacyJsonAdapter (Arg.session args) (Arg.auth args)
    (Arg.endpoint_type args) (Arg.service_type args)
    (dict_get (Arg.kwargs args) "share_service_name" (Arg.service_name args))
    (Arg.region_name args).

(** A session that answers with a token and an endpoint. *)
Definition session_env (token endpoint : outcome value) : Env :=
  {| session_get_token := fun _ _ => token;
     session_get_endpoint := fun _ _ _ _ _ => endpoint;
     discover_Discover := fun _ _ => Raise (External "Discover");
     ks_client_Client := fun _ => Raise (External "Client");
     extension_attr := fun _ _ => Raise (External "getattr");
     instantiate := fun _ => Raise (External "manager_class") |}.

(** A keystone client with a catalog of its own and a result of
    [authenticate]. *)
Definition keystone_with (auth : outcome unit) (token : value)
    (catalog : gmap string (list (gmap string value))) : KeystoneClient :=
  {| authenticate := auth;
     auth_token := token;
     get_endpoints := fun _ => Ok catalog;
     get_endpoint := fun _ _ _ _ => Raise (External "get_endpoint") |}.

(** An identity service of version 3 that hands out [kc]. *)
Definition keystone_env (kc : KeystoneClient) : Env :=
  {| session_get_token := fun _ _ => Raise (External "get_token");
     session_get_endpoint := fun _ _ _ _ _ => Raise (External "get_endpoint");
     discover_Discover := fun _ _ => Ok both_versions;
     ks_client_Client := fun _ => Ok kc;
     extension_attr := fun _ _ => Raise (External "getattr");
     instantiate := fun _ => Raise (External "manager_class") |}.

(** An identity service that cannot be reached. *)
Definition unreachable_env : Env :=
  {| session_get_token := fun _ _ => Raise (External "get_token");
     session_get_endpoint := fun _ _ _ _ _ => Raise (External "get_endpoint");
     discover_Discover := fun _ _ => Raise (External "ConnectionRefused");
     ks_client_Client := fun _ => Raise (External "Client");
     extension_attr := fun _ _ => Raise (External "getattr");
     instantiate := fun _ => Raise (External "manager_class") |}.

(** A catalog whose first public endpoint of the region has no URL. *)
Definition urlless_catalog : gmap string (list (gmap string value)) :=
  list_to_map
    [ ("rating",
       [ list_to_map [ ("interface", VStr "public"); ("region", VStr "nz-por-1") ];
         list_to_map [ ("interface", VStr "public"); ("region", VStr "nz-por-1");
                       ("url", VStr "http://distil.por") ] ]) ].

(** A catalog in the format of the version 2 identity service. *)
Definition legacy_entry : gmap string value :=
  list_to_map [ ("publicURL", VStr "http://distil.por");
                ("adminURL", VStr "http://admin.por");
                ("region", VStr "nz-por-1") ].

(** A catalog without the rating service. *)
Definition other_catalog : gmap string (list (gmap string value)) :=
  list_to_map
    [ ("compute",
       [ list_to_map [ ("interface", VStr "public"); ("region", VStr "nz-por-1");
                       ("url", VStr "http://nova.por") ] ]) ].

(** [Client(session=sess, auth=plugin, region_name='nz-por-1')]. *)
Definition session_login_args : gmap string value :=
  list_to_map
    [ ("session", VObj 0); ("auth", VObj 1); ("region_name", VStr "nz-por-1") ].


(** [Client(tenant_id='t', project_id='p', input_auth_token='token',
    distil_url='http://distil')]. *)
Definition tenant_args : gmap string value :=
  list_to_map
    [ ("tenant_id", VStr "t"); ("project_id", VStr "p");
      ("input_auth_token", VStr "token"); ("distil_url", VStr "http://distil") ].

(** Extension descriptors 0 and 2 have a manager class, descriptor 1 has
    none. *)
Definition extension_env : Env :=
  {| session_get_token := fun _ _ => Raise (External "get_token");
     session_get_endpoint := fun _ _ _ _ _ => Raise (External "get_endpoint");
     discover_Discover := fun _ _ => Raise (External "Discover");
     ks_client_Client := fun _ => Raise (External "Client");
     extension_attr := fun o name =>
       if String.eqb name "name" then
         Ok (VStr (if Nat.eqb o 0 then "alpha" else if Nat.eqb o 1 then "beta" else "gamma"))
       else if String.eqb name "manager_class" then
         Ok (if Nat.eqb o 1 then VNone else VObj (10 + o))
       else Raise (AttributeError name);
     instantiate := fun mc =>
       match mc with
       | VObj n => Ok (VObj (100 + n))
       | _ => Raise (TypeError "not callable")
       end |}.


(** The manager class that the loop of [_load_extensions] calls for an
    element of [extensions], if it calls one. *)
Definition called_manager_class (env : Env) (extension : value) : option value :=
  match extension with
  | VObj o =>
      match extension_attr env o "manager_class" with
      | Ok mc => if truthy mc then Some mc else None
      | Raise _ => None
      end
  | _ => None
  end.

(** An extension descriptor that the loop can handle: it has a
    [manager_class] attribute, and when that is truthy it has a string as
    [name] and the class can be called. *)
Definition loadable (env : Env) (extension : value) : Prop :=
  exists o mc,
    extension = VObj o
    /\ extension_attr env o "manager_class" = Ok mc
    /\ (truthy mc = true ->
        exists n mgr,
          extension_attr env o "name" = Ok (VStr n)
          /\ instantiate env mc = Ok mgr).

(** The four deprecated arguments that can reach [**kwargs]. *)
Definition deprecated_keywords : list string :=
  [ "share_service_name"; "proxy_tenant_id"; "proxy_token"; "os_cache" ].

(** [Client(verbose=True, os_cache=None, input_auth_token='token',
    distil_url='http://distil')]. *)
Definition unknown_keyword_args : gmap string value :=
  list_to_map
    [ ("verbose", VBool true);
      ("os_cache", VNone);
      ("input_auth_token", VStr "token");
      ("distil_url", VStr "http://distil") ].

(** ** The attributes of the finished object *)

(** What an attribute of a client holds. *)
Inductive attribute : Type :=
| Value (v : value)
| KeystoneAttr (k : option keystone)
| Transport (h : httpclient.HTTPClient)
| ManagerAttr (m : Manager).

(** The attributes that [__init__] assigns by name, lines 75-197, with
    the values they have when line 199 is reached. *)
Definition named_attributes (c : Client) : gmap string attribute :=
  list_to_map
    [ ("username", Value (username (attrs c)));
      ("password", Value (password (attrs c)));
      ("tenant_id", Value (tenant_id (attrs c)));
      ("tenant_name", Value (tenant_name (attrs c)));
      ("user_id", Value (user_id (attrs c)));
      ("project_id", Value (project_id (attrs c)));
      ("project_name", Value (project_name (attrs c)));
      ("user_domain_id", Value (user_domain_id (attrs c)));
      ("user_domain_name", Value (user_domain_name (attrs c)));
      ("project_domain_id", Value (project_domain_id (attrs c)));
      ("project_domain_name", Value (project_domain_name (attrs c)));
      ("endpoint_type", Value (endpoint_type (attrs c)));
      ("auth_url", Value (auth_url (attrs c)));
      ("region_name", Value (region_name (attrs c)));
      ("cacert", Value (cacert (attrs c)));
      ("cert", Value (cert (attrs c)));
      ("insecure", Value (insecure (attrs c)));
      ("use_keyring", Value (use_keyring (attrs c)));
      ("force_new_token", Value (force_new_token (attrs c)));
      ("cached_token_lifetime", Value (cached_token_lifetime (attrs c)));
      ("keystone_client", KeystoneAttr (keystone_client c));
      ("session", Value (session c));
      ("api_version", Value (api_version c));
      ("client", Transport (client c));
      ("measurements", ManagerAttr (measurements c));
      ("invoices", ManagerAttr (invoices c));
      ("quotations", ManagerAttr (quotations c));
      ("credits", ManagerAttr (credits c));
      ("products", ManagerAttr (products c));
      ("health", ManagerAttr (health c)) ].

(** The dictionary of the object when the constructor returns: the
    assignments of line 207 come last, so they replace the attributes of
    the same name. *)
Definition Client_dict (c : Client) : gmap string attribute :=
  (Value <$> extension_attrs c) ∪ named_attributes c.

(** [getattr(client, name)], [None] when there is no such attribute. *)
Definition getattr (c : Client) (name : string) : option attribute :=
  Client_dict c !! name.

(** The loop of lines 205-207 run on the dictionary of the object itself:
    [setattr(self, extension.name, ...)] as an insertion into [dict]. *)
Fixpoint load_each_in_place (env : Env) (extensions : list value)
    (dict : gmap string attribute) : M (gmap string attribute) :=
  match extensions with
  | [] => mret dict
  | extension :: rest =>
      manager_class ← getattr_ env extension "manager_class";
      if truthy manager_class then
        name ← getattr_ env extension "name";
        mgr ← perform (CallManagerClass manager_class)
                (instantiate env manager_class);
        match name with
        | VStr n => load_each_in_place env rest (<[n := Value mgr]> dict)
        | _ => raise (TypeError "attribute name must be string")
        end
      else load_each_in_place env rest dict
  end.





(** [Client(tenant_id='t', project_id='p', input_auth_token='token',
    distil_url='http://distil', extensions=[ext])]. *)
Definition extended_tenant_args : gmap string value :=
  <["extensions" := VList [VObj 0]]> tenant_args.

(** A rendering of versions under [%s]: a string as it is, an integer in
    decimal. *)
Definition sample_str (v : value) : string :=
  match v with
  | VStr s => s
  | VInt z => pretty z
  | _ => "None"
  end.

(** * Properties *)

(** ** The monad *)

Lemma run_bind {A B} (m : M A) (f : A -> M B) w :
  run (m ≫= f) w =
  match run m w with
  | (Ok a, w') => run (f a) w'
  | (Raise e, w') => (Raise e, w')
  end.
Proof. reflexivity. Qed.

Lemma run_ret {A} (a : A) w : run (mret a) w = (Ok a, w).
Proof. reflexivity. Qed.

Lemma run_raise {A} e w : run (raise e : M A) w = (Raise e, w).
Proof. reflexivity. Qed.

Lemma run_warn msg w :
  run (warn msg) w = (Ok tt, mkWorld (warnings w ++ [msg]) (calls w)).
Proof. reflexivity. Qed.

Lemma run_perform {A} c (answer : outcome A) w :
  run (perform c answer) w = (answer, mkWorld (warnings w) (calls w ++ [c])).
Proof. reflexivity. Qed.

Lemma run_lift {A} (answer : outcome A) w : run (lift answer) w = (answer, w).
Proof. reflexivity. Qed.

(** Evaluate a closed run. *)
Ltac evaluate_run H m w :=
  let r := eval vm_compute in (run m w) in
  assert (H : run m w = r) by (vm_compute; reflexivity).

Lemma bind_Ok {A B} (m : M A) (f : A -> M B) w b w2 :
  run (m ≫= f) w = (Ok b, w2) ->
  exists a w1, run m w = (Ok a, w1) /\ run (f a) w1 = (Ok b, w2).
Proof.
  rewrite run_bind. destruct (run m w) as [[a | e] w1]; intros Hr.
  - exists a, w1. split; [reflexivity | exact Hr].
  - discriminate Hr.
Qed.

Lemma when_Ok b (m : M unit) w u w' :
  (forall w0, exists e, run m w0 = (Raise e, w0)) ->
  run (when_ b m) w = (Ok u, w') -> b = false /\ w' = w.
Proof.
  intros Hm. destruct b; simpl.
  - destruct (Hm w) as [e He]. rewrite He. discriminate.
  - rewrite run_ret. intros [= _ <-]. split; reflexivity.
Qed.

Lemma when_raise_Ok b e w u w' :
  run (when_ b (raise e)) w = (Ok u, w') -> b = false /\ w' = w.
Proof.
  apply when_Ok. intros w0. exists e. reflexivity.
Qed.


(** ** [check_deprecated_arguments] *)

Lemma check_deprecated_arguments_run kwargs w :
  run (check_deprecated_arguments kwargs) w =
  (Ok tt, mkWorld (warnings w ++ deprecation_warnings kwargs) (calls w)).
Proof.
  unfold check_deprecated_arguments, deprecation_warnings.
  generalize deprecated as l. intros l. revert w.
  induction l as [| [arg replacement] l IH]; intros w.
  - simpl. rewrite run_ret, app_nil_r. destruct w; reflexivity.
  - cbn [for_ omap list_omap]. rewrite run_bind.
    destruct (is_None (dict_get kwargs arg VNone)).
    + rewrite run_ret. apply IH.
    + rewrite run_warn, IH. cbn [warnings calls].
      rewrite <- app_assoc. reflexivity.
Qed.

(** ** [Client.__init__]: the stages *)

(** What [credential_resolution] does up to the token guard. *)
Lemma credential_resolution_guard env args w :
  truthy (Arg.input_auth_token args) = true ->
  truthy (Arg.distil_url args) = false ->
  run (credential_resolution env args) w =
  (Raise (ClientException token_guard_message),
   mkWorld (warnings w ++ deprecation_warnings (Arg.kwargs args)) (calls w)).
Proof.
  intros Htok Hurl. unfold credential_resolution.
  rewrite run_bind, check_deprecated_arguments_run.
  rewrite Htok, Hurl. reflexivity.
Qed.

(** Every normal return of [credential_resolution] went one of three
    ways. *)
Lemma credential_resolution_Ok env args w self kc tok w1 :
  run (credential_resolution env args) w = (Ok (self, kc, tok), w1) ->
  self = set_project_id (initial_attrs args)
           (if negb (is_None (Arg.tenant_id args)) then Arg.tenant_id args
            else Arg.project_id args)
  /\ ((truthy (Arg.input_auth_token args) = true
       /\ truthy (Arg.distil_url args) = true
       /\ kc = None /\ tok = Arg.input_auth_token args)
      \/ (truthy (Arg.input_auth_token args) = false
          /\ truthy (Arg.session args) = true
          /\ (exists a b c d e f, kc = Some (LegacyJsonAdapter a b c d e f))
          /\ session_get_token env (Arg.session args) (Arg.auth args) = Ok tok)
      \/ (truthy (Arg.input_auth_token args) = false
          /\ truthy (Arg.session args) = false
          /\ exists k w0, kc = Some (Keystone k) /\ tok = auth_token k
             /\ run (_get_keystone_client env self) w0 = (Ok k, w1))).
Proof.
  unfold credential_resolution. intros Hr.
  apply bind_Ok in Hr as ([] & w0 & _ & Hr).
  apply bind_Ok in Hr as ([] & w0' & Hg & Hr).
  apply when_raise_Ok in Hg as [Hg ->].
  destruct (truthy (Arg.input_auth_token args)) eqn:Htok; cbn [negb] in Hr.
  - rewrite run_ret in Hr. injection Hr as <- <- <- <-.
    split; [reflexivity |]. left.
    destruct (truthy (Arg.distil_url args)); [auto | discriminate Hg].
  - destruct (truthy (Arg.session args)) eqn:Hs.
    + apply bind_Ok in Hr as (t & w2 & Hp & Hr).
      rewrite run_ret in Hr. injection Hr as <- <- <- <-.
      rewrite run_perform in Hp. injection Hp as Hp _.
      split; [reflexivity |]. right. left. repeat split; eauto 10.
    + apply bind_Ok in Hr as (k & w2 & Hk & Hr).
      rewrite run_ret in Hr. injection Hr as <- <- <- <-.
      split; [reflexivity |]. right. right. repeat split; eauto 10.
Qed.

(** Every normal return of [endpoint_resolution] comes after a normal
    return of [credential_resolution] with a truthy token. *)
Lemma endpoint_resolution_Ok env args w self kc tok url w2 :
  run (endpoint_resolution env args) w = (Ok (self, kc, tok, url), w2) ->
  exists w1,
    run (credential_resolution env args) w = (Ok (self, kc, tok), w1)
    /\ truthy tok = true
    /\ run (if truthy (Arg.session args) && negb (truthy (Arg.distil_url args)) then
              endpoint_of_session env kc (Arg.auth args)
                (Arg.endpoint_type args) (Arg.service_type args)
                (Arg.region_name args)
            else if negb (truthy (Arg.distil_url args)) then
              endpoint_of_catalog kc (Arg.endpoint_type args)
                (Arg.service_type args) (Arg.region_name args)
                (Arg.distil_url args)
            else mret (Arg.distil_url args)) w1 = (Ok url, w2).
Proof.
  unfold endpoint_resolution. intros Hr.
  apply bind_Ok in Hr as ([[self' kc'] tok'] & w1 & Hc & Hr).
  apply bind_Ok in Hr as ([] & w1' & Hg & Hr).
  apply when_raise_Ok in Hg as [Hg ->].
  apply bind_Ok in Hr as (url' & w2' & Hu & Hr).
  rewrite run_ret in Hr. injection Hr as <- <- <- <- <-.
  exists w1. split; [exact Hc |]. split; [| exact Hu].
  destruct (truthy tok'); [reflexivity | discriminate Hg].
Qed.

(** Every normal return of the constructor comes after a normal return
    of [endpoint_resolution] with a truthy URL, and the client is built
    from what that stage returned. *)
Lemma Client_init_Ok env args w c w3 :
  run (Client_init env args) w = (Ok c, w3) ->
  exists self kc tok url w2,
    run (endpoint_resolution env args) w = (Ok (self, kc, tok, url), w2)
    /\ truthy url = true
    /\ attrs c = self
    /\ keystone_client c = kc
    /\ httpclient.auth_token (client c) = tok
    /\ httpclient.endpoint_url (client c) = url.
Proof.
  unfold Client_init. intros Hr.
  apply bind_Ok in Hr as ([[[self kc] tok] url] & w2 & He & Hr).
  apply bind_Ok in Hr as ([] & w2' & Hg & Hr).
  apply when_raise_Ok in Hg as [Hg ->].
  apply bind_Ok in Hr as (set & w3' & Hx & Hr).
  rewrite run_ret in Hr. injection Hr as <- <-.
  exists self, kc, tok, url, w2. cbn.
  repeat split; try reflexivity; [exact He |].
  destruct (truthy url); [reflexivity | discriminate Hg].
Qed.

(** ** The attributes of the finished object *)

(** The overlay is the loop of line 207 run in place: started on a
    dictionary with the assignments made so far laid over [named], the
    loop on the dictionary itself ends as the loop on the assignments
    does, with its result laid over [named]. *)
Lemma load_each_in_place_overlay env l set named w :
  run (load_each_in_place env l ((Value <$> set) ∪ named)) w =
  match run (load_each env l set) w with
  | (Ok set', w') => (Ok ((Value <$> set') ∪ named), w')
  | (Raise e, w') => (Raise e, w')
  end.
Proof.
  revert set w. induction l as [| x l IH]; intros set w; [reflexivity |].
  cbn [load_each load_each_in_place]. rewrite !run_bind.
  destruct (run (getattr_ env x "manager_class") w) as [[mc | e] w1];
    [| reflexivity].
  destruct (truthy mc); [| apply IH].
  rewrite !run_bind.
  destruct (run (getattr_ env x "name") w1) as [[name | e] w2]; [| reflexivity].
  rewrite !run_bind.
  destruct (run (perform (CallManagerClass mc) (instantiate env mc)) w2)
    as [[mgr | e] w3]; [| reflexivity].
  destruct name; try reflexivity.
  rewrite <- IH, fmap_insert, insert_union_l. reflexivity.
Qed.


(** The normal returns of the constructor, with the step that loads the
    extensions. *)
Lemma Client_init_Ok_extensions env args w c w3 :
  run (Client_init env args) w = (Ok c, w3) ->
  exists w2,
    run (_load_extensions env (Arg.extensions args)) w2 =
    (Ok (extension_attrs c), w3).
Proof.
  unfold Client_init. intros Hr.
  apply bind_Ok in Hr as ([[[self kc] tok] url] & w2 & He & Hr).
  apply bind_Ok in Hr as ([] & w2' & Hg & Hr).
  apply when_raise_Ok in Hg as [Hg ->].
  apply bind_Ok in Hr as (set & w3' & Hx & Hr).
  rewrite run_ret in Hr. injection Hr as <- <-.
  exists w2. exact Hx.
Qed.



(** And the one that a loaded extension has taken over is its manager. *)
Lemma getattr_rebound c n v :
  extension_attrs c !! n = Some v -> getattr c n = Some (Value v).
Proof.
  intros Hn. unfold getattr, Client_dict.
  apply lookup_union_Some_l. rewrite lookup_fmap, Hn. reflexivity.
Qed.

(** The dictionary of a returned client is what the loop of line 207
    leaves when it runs in place on the attributes assigned by name. *)
Lemma Client_dict_in_place env args w c w3 l :
  run (Client_init env args) w = (Ok c, w3) ->
  Arg.extensions args = VList l ->
  exists w2,
    run (load_each_in_place env l (named_attributes c)) w2 = (Ok (Client_dict c), w3).
Proof.
  intros Hr Hl. apply Client_init_Ok_extensions in Hr as (w2 & Hx).
  rewrite Hl in Hx. exists w2.
  assert (Hloop : run (load_each env l ∅) w2 = (Ok (extension_attrs c), w3)).
  { destruct l; exact Hx. }
  pose proof (load_each_in_place_overlay env l ∅ (named_attributes c) w2) as Ho.
  rewrite Hloop, fmap_empty, (left_id_L ∅ (∪)) in Ho. exact Ho.
Qed.


(** ** The claims on [Client.__init__] *)






(** C2.  With a truthy [input_auth_token] and no truthy [distil_url] the
    constructor raises [ClientException] with the message of lines
    129-131, after the deprecation warnings only: the log of interactions
    is what it was before the call. *)
Theorem token_without_url_fails env args w :
  truthy (Arg.input_auth_token args) = true ->
  truthy (Arg.distil_url args) = false ->
  exists w',
    run (Client_init env args) w =
    (Raise (ClientException
       "For token-based authentication you should provide 'input_auth_token' and 'distil_url'."),
     w')
    /\ calls w' = calls w.
Proof.
  intros Htok Hurl.
  exists (mkWorld (warnings w ++ deprecation_warnings (Arg.kwargs args)) (calls w)).
  split; [| reflexivity].
  unfold Client_init, endpoint_resolution.
  rewrite !run_bind, (credential_resolution_guard env args w Htok Hurl).
  reflexivity.
Qed.

Lemma token_without_url_fails_witness :
  truthy (Arg.input_auth_token token_only_args) = true
  /\ truthy (Arg.distil_url token_only_args) = false
  /\ exists w',
       run (Client_init failing_env token_only_args) empty_world =
       (Raise (ClientException
          "For token-based authentication you should provide 'input_auth_token' and 'distil_url'."),
        w')
       /\ calls w' = calls empty_world.
Proof.
  split; [reflexivity |]. split; [reflexivity |].
  apply (token_without_url_fails failing_env token_only_args empty_world);
    reflexivity.
Defined.




(** ** The version constants *)

(** C10.  [API_MAX_VERSION] is '1' and [API_MIN_VERSION] is '2', so the
    declared maximum is strictly below the declared minimum (as strings
    and as the numbers they denote), and [API_DEPRECATED_VERSION] is
    empty. *)
Theorem api_version_constants :
  API_MAX_VERSION = "1"
  /\ API_MIN_VERSION = "2"
  /\ String.ltb API_MAX_VERSION API_MIN_VERSION = true
  /\ API_DEPRECATED_VERSION = [].
Proof. repeat split. Qed.

(** ** Deprecated arguments *)

(** A parameter of the signature never reaches [**kwargs]. *)
Lemma kwargs_parameter args name :
  name ∈ parameter_names -> Arg.kwargs args !! name = None.
Proof.
  intros Hin. unfold Arg.kwargs. apply map_lookup_filter_None.
  right. intros v _ Hnot. apply Hnot. exact Hin.
Qed.

(** Any other name reaches it unchanged. *)
Lemma kwargs_other args name :
  name ∉ parameter_names -> Arg.kwargs args !! name = args !! name.
Proof.
  intros Hnot. unfold Arg.kwargs.
  destruct (args !! name) as [v |] eqn:Hl.
  - apply map_lookup_filter_Some. split; [exact Hl | exact Hnot].
  - apply map_lookup_filter_None. left. exact Hl.
Qed.

Lemma api_key_is_parameter : "api_key" ∈ parameter_names.
Proof. compute_done. Qed.

Lemma api_key_not_in_kwargs args :
  is_None (dict_get (Arg.kwargs args) "api_key" VNone) = true.
Proof.
  unfold dict_get. rewrite (kwargs_parameter args _ api_key_is_parameter).
  reflexivity.
Qed.

(** Whatever the invocation, [check_deprecated_arguments] never warns
    about [api_key]: the argument is bound to the parameter of that name
    and is no key of [kwargs]. *)
Lemma api_key_never_warned args :
  deprecation_message "api_key" (Some "password")
  ∉ deprecation_warnings (Arg.kwargs args).
Proof.
  unfold deprecation_warnings, deprecated. cbn [omap list_omap].
  rewrite (api_key_not_in_kwargs args).
  repeat match goal with
         | |- context [is_None ?v] => destruct (is_None v)
         end;
    intros Hin;
    repeat (apply elem_of_cons in Hin as [Hin | Hin]; [discriminate Hin |]);
    apply elem_of_nil in Hin; exact Hin.
Qed.

(** X16.  A deprecated argument other than [api_key], supplied with a value
    that is not [None], is warned about exactly once, with the message
    that names it and its replacement if it has one. *)
Lemma deprecated_kwarg_warned_once args arg replacement v :
  (arg, replacement) ∈ deprecated ->
  arg <> "api_key" ->
  args !! arg = Some v ->
  is_None v = false ->
  length (filter (fun m => m = deprecation_message arg replacement)
            (deprecation_warnings (Arg.kwargs args))) = 1%nat.
Proof.
  intros Hin Hne Hl Hv.
  assert (Hk : forall name, name ∉ parameter_names -> name = arg ->
               is_None (dict_get (Arg.kwargs args) name VNone) = false).
  { intros name Hnot ->. unfold dict_get. rewrite (kwargs_other _ _ Hnot), Hl.
    exact Hv. }
  unfold deprecation_warnings, deprecated in *. cbn [omap list_omap].
  rewrite (api_key_not_in_kwargs args).
  repeat (apply elem_of_cons in Hin as [Hin | Hin];
          [injection Hin as -> -> |]);
    [ .. | apply elem_of_nil in Hin; destruct Hin ];
    try (exfalso; apply Hne; reflexivity);
    match type of Hl with
    | _ !! ?a = _ => rewrite (Hk a); [| compute_done | reflexivity]
    end;
    repeat match goal with
           | |- context [is_None ?v] => destruct (is_None v)
           end;
    vm_compute; reflexivity.
Qed.

(** A deprecated argument that is no parameter: one warning. *)
Example os_cache_warned env :
  exists c,
    run (Client_init env os_cache_args) empty_world =
    (Ok c, mkWorld ["Argument os_cache is deprecated. Use use_keyring instead."] []).
Proof. eexists. vm_compute. reflexivity. Qed.

(** C5, at [Client(api_key='secret', input_auth_token='token',
    distil_url='http://distil')]: whatever the collaborators do, the
    constructor returns, the api key has become the password, and no
    warning at all has been emitted. *)
Theorem api_key_argument_not_warned env :
  exists c,
    run (Client_init env api_key_args) empty_world = (Ok c, mkWorld [] [])
    /\ password (attrs c) = VStr "secret".
Proof.
  eexists. split; vm_compute; reflexivity.
Qed.

(** ** [_get_keystone_client] *)

(** The three interactions of the discovery. *)
Ltac discovery Hd H2 H3 :=
  rewrite run_bind, run_perform, Hd; cbn beta iota;
  rewrite run_bind, run_perform, H2; cbn beta iota;
  rewrite run_bind, run_perform, H3; cbn beta iota.

Ltac same_log :=
  unfold after_calls; cbn [warnings calls];
  rewrite <- ?app_assoc; reflexivity.

(** Once the discovery has answered, [_get_keystone_client] is decided by
    the two URLs. *)
Lemma get_keystone_client_discovered env self w url_for v2_auth_url v3_auth_url :
  discover_Discover env (keystone_session self) (auth_url self) = Ok url_for ->
  url_for "v2.0" = Ok v2_auth_url ->
  url_for "v3.0" = Ok v3_auth_url ->
  let discovered :=
    after_calls w [CallDiscover (auth_url self); CallUrlFor "v2.0"; CallUrlFor "v3.0"] in
  (truthy v3_auth_url = true ->
   forall kc,
     ks_client_Client env (v3_arguments self (keystone_session self) v3_auth_url) = Ok kc ->
     authenticate kc = Ok tt ->
     run (_get_keystone_client env self) w =
     (Ok kc, after_calls discovered [CallKeystoneClient (3, 0); CallAuthenticate]))
  /\ (truthy v3_auth_url = false -> truthy v2_auth_url = true ->
      forall kc,
        ks_client_Client env (v2_arguments self (keystone_session self) v2_auth_url) = Ok kc ->
        authenticate kc = Ok tt ->
        run (_get_keystone_client env self) w =
        (Ok kc, after_calls discovered [CallKeystoneClient (2, 0); CallAuthenticate]))
  /\ (truthy v3_auth_url = false -> truthy v2_auth_url = false ->
      run (_get_keystone_client env self) w =
      (Raise (CommandError keystone_version_message), discovered)).
Proof.
  intros Hd H2 H3 discovered. subst discovered.
  unfold _get_keystone_client. cbv zeta.
  split; [| split].
  - intros Ht kc Hk Ha. discovery Hd H2 H3.
    rewrite Ht, !run_bind, run_perform, Hk. cbn beta iota.
    rewrite run_bind, run_perform, Ha. cbn beta iota. rewrite run_ret. same_log.
  - intros Ht3 Ht2 kc Hk Ha. discovery Hd H2 H3.
    rewrite Ht3, Ht2, !run_bind, run_perform, Hk. cbn beta iota.
    rewrite run_bind, run_perform, Ha. cbn beta iota. rewrite run_ret. same_log.
  - intros Ht3 Ht2. discovery Hd H2 H3.
    rewrite Ht3, Ht2, !run_bind, run_raise. same_log.
Qed.

(** With neither token nor session, [credential_resolution] is the
    deprecation warnings followed by [_get_keystone_client]. *)
Lemma credential_resolution_keystone env args w :
  truthy (Arg.input_auth_token args) = false ->
  truthy (Arg.session args) = false ->
  run (credential_resolution env args) w =
  match run (_get_keystone_client env (resolved_attrs args)) (after_warnings w args) with
  | (Ok kc, w') => (Ok (resolved_attrs args, Some (Keystone kc), auth_token kc), w')
  | (Raise e, w') => (Raise e, w')
  end.
Proof.
  intros Htok Hs. unfold credential_resolution.
  rewrite run_bind, check_deprecated_arguments_run. cbn beta iota.
  rewrite Htok, Hs. cbn [andb negb when_].
  rewrite run_bind, run_ret. cbn beta iota. rewrite run_bind.
  reflexivity.
Qed.

(** C4.  When the constructor has neither token nor session it discovers
    the URLs of both protocol versions and then: creates and
    authenticates the version 3 client whenever the version 3 URL is
    there; the version 2 client when only the version 2 URL is there; and
    raises [CommandError] ("Unable to determine the Keystone version ...")
    out of the constructor when neither is there. *)
Theorem keystone_version_preference env args w url_for v2_auth_url v3_auth_url :
  let self := resolved_attrs args in
  truthy (Arg.input_auth_token args) = false ->
  truthy (Arg.session args) = false ->
  discover_Discover env (keystone_session self) (auth_url self) = Ok url_for ->
  url_for "v2.0" = Ok v2_auth_url ->
  url_for "v3.0" = Ok v3_auth_url ->
  let discovered :=
    after_calls (after_warnings w args)
      [CallDiscover (auth_url self); CallUrlFor "v2.0"; CallUrlFor "v3.0"] in
  (truthy v3_auth_url = true ->
   forall kc,
     ks_client_Client env (v3_arguments self (keystone_session self) v3_auth_url) = Ok kc ->
     authenticate kc = Ok tt ->
     run (credential_resolution env args) w =
     (Ok (self, Some (Keystone kc), auth_token kc),
      after_calls discovered [CallKeystoneClient (3, 0); CallAuthenticate]))
  /\ (truthy v3_auth_url = false -> truthy v2_auth_url = true ->
      forall kc,
        ks_client_Client env (v2_arguments self (keystone_session self) v2_auth_url) = Ok kc ->
        authenticate kc = Ok tt ->
        run (credential_resolution env args) w =
        (Ok (self, Some (Keystone kc), auth_token kc),
         after_calls discovered [CallKeystoneClient (2, 0); CallAuthenticate]))
  /\ (truthy v3_auth_url = false -> truthy v2_auth_url = false ->
      run (Client_init env args) w =
      (Raise (CommandError
         "Unable to determine the Keystone version to authenticate with using the given auth_url."),
       discovered)).
Proof.
  intros self Htok Hs Hd H2 H3 discovered.
  destruct (get_keystone_client_discovered env self (after_warnings w args)
              url_for v2_auth_url v3_auth_url Hd H2 H3) as (Hv3 & Hv2 & Hnone).
  split; [| split].
  - intros Ht kc Hk Ha.
    rewrite (credential_resolution_keystone env args w Htok Hs).
    fold self. rewrite (Hv3 Ht kc Hk Ha). reflexivity.
  - intros Ht3 Ht2 kc Hk Ha.
    rewrite (credential_resolution_keystone env args w Htok Hs).
    fold self. rewrite (Hv2 Ht3 Ht2 kc Hk Ha). reflexivity.
  - intros Ht3 Ht2. unfold Client_init, endpoint_resolution.
    rewrite !run_bind, (credential_resolution_keystone env args w Htok Hs).
    fold self. rewrite (Hnone Ht3 Ht2). reflexivity.
Qed.

(** C4, at a password login against an identity service that speaks
    both versions, only the older one, and neither. *)
Lemma keystone_version_preference_witness :
  run (credential_resolution (identity_env both_versions) password_login_args)
      empty_world =
  (Ok (resolved_attrs password_login_args, Some (Keystone sample_keystone),
       VStr "token"),
   mkWorld []
     [ CallDiscover (VStr "http://keystone"); CallUrlFor "v2.0";
       CallUrlFor "v3.0"; CallKeystoneClient (3, 0); CallAuthenticate ])
  /\ run (credential_resolution (identity_env only_v2) password_login_args)
         empty_world =
     (Ok (resolved_attrs password_login_args, Some (Keystone sample_keystone),
          VStr "token"),
      mkWorld []
        [ CallDiscover (VStr "http://keystone"); CallUrlFor "v2.0";
          CallUrlFor "v3.0"; CallKeystoneClient (2, 0); CallAuthenticate ])
  /\ run (Client_init (identity_env no_version) password_login_args)
         empty_world =
     (Raise (CommandError
        "Unable to determine the Keystone version to authenticate with using the given auth_url."),
      mkWorld []
        [ CallDiscover (VStr "http://keystone"); CallUrlFor "v2.0";
          CallUrlFor "v3.0" ]).
Proof.
  split; [| split].
  - destruct (keystone_version_preference (identity_env both_versions)
                password_login_args empty_world both_versions
                (VStr "http://keystone/v2.0") (VStr "http://keystone/v3")
                eq_refl eq_refl eq_refl eq_refl eq_refl) as (Hv3 & _ & _).
    exact (Hv3 eq_refl sample_keystone eq_refl eq_refl).
  - destruct (keystone_version_preference (identity_env only_v2)
                password_login_args empty_world only_v2
                (VStr "http://keystone/v2.0") VNone
                eq_refl eq_refl eq_refl eq_refl eq_refl) as (_ & Hv2 & _).
    exact (Hv2 eq_refl eq_refl sample_keystone eq_refl eq_refl).
  - destruct (keystone_version_preference (identity_env no_version)
                password_login_args empty_world no_version VNone VNone
                eq_refl eq_refl eq_refl eq_refl eq_refl) as (_ & _ & Hnone).
    exact (Hnone eq_refl eq_refl).
Defined.

(** ** The scan of the catalog *)

(** The interface names that the endpoint types stand for. *)
Example interface_of_endpoint_type :
  split_head "url" (lower "publicURL") = "public"
  /\ split_head "url" (lower "internalURL") = "internal"
  /\ split_head "url" (lower "adminURL") = "admin"
  /\ split_head "url" (lower "public") = "public".
Proof. repeat split. Qed.

(** The loop stops at the first selected entry. *)
Lemma scan_catalog_find et region entries d :
  scan_catalog et region entries d =
  match List.find (entry_selected et region) entries with
  | Some e => entry_url et e
  | None => d
  end.
Proof.
  induction entries as [| e rest IH]; [reflexivity |].
  cbn [scan_catalog List.find]. unfold entry_selected at 1.
  destruct (interface_matches et e); cbn [andb]; [| exact IH].
  destruct (region_differs region e); cbn [negb]; [exact IH | reflexivity].
Qed.

Lemma find_first {A} (f : A -> bool) l e :
  List.find f l = Some e ->
  exists pre post,
    l = pre ++ e :: post /\ Forall (fun x => f x = false) pre /\ f e = true.
Proof.
  induction l as [| x l IH]; [discriminate |].
  cbn [List.find]. destruct (f x) eqn:Hx.
  - intros [= ->]. exists [], l. split; [reflexivity |]. split; [constructor | exact Hx].
  - intros Hf. destruct (IH Hf) as (pre & post & -> & Hpre & He).
    exists (x :: pre), post. split; [reflexivity |].
    split; [constructor; assumption | exact He].
Qed.

Lemma find_nothing {A} (f : A -> bool) l :
  Forall (fun x => f x = false) l -> List.find f l = None.
Proof.
  induction 1 as [| x l Hx _ IH]; [reflexivity |].
  cbn [List.find]. rewrite Hx. exact IH.
Qed.

Lemma scan_catalog_first et region pre e post d :
  Forall (fun x => entry_selected et region x = false) pre ->
  entry_selected et region e = true ->
  scan_catalog et region (pre ++ e :: post) d = entry_url et e.
Proof.
  intros Hpre He. induction Hpre as [| x pre Hx _ IH].
  - rewrite scan_catalog_find. cbn [app List.find]. rewrite He. reflexivity.
  - rewrite scan_catalog_find in *. cbn [app List.find]. rewrite Hx. exact IH.
Qed.

Lemma scan_catalog_none et region entries d :
  Forall (fun x => entry_selected et region x = false) entries ->
  scan_catalog et region entries d = d.
Proof.
  intros Hn. rewrite scan_catalog_find, (find_nothing _ _ Hn). reflexivity.
Qed.

(** A truthy result of the scan, started from a value that is not truthy,
    is the URL of the first selected entry. *)
Lemma scan_catalog_truthy et region entries d :
  truthy d = false ->
  truthy (scan_catalog et region entries d) = true ->
  exists pre e post,
    entries = pre ++ e :: post
    /\ Forall (fun x => entry_selected et region x = false) pre
    /\ entry_selected et region e = true
    /\ scan_catalog et region entries d = entry_url et e.
Proof.
  intros Hd. rewrite scan_catalog_find.
  destruct (List.find (entry_selected et region) entries) as [e |] eqn:Hf.
  - intros _. destruct (find_first _ _ _ Hf) as (pre & post & Hl & Hpre & He).
    exists pre, e, post. auto.
  - rewrite Hd. discriminate.
Qed.

(** C3.  Without session and without explicit URL: a client that the
    constructor returns has the URL of the first entry, in the order of
    the catalog list for the service type, whose interface matches the
    endpoint type and whose region is the requested one when a region is
    requested (the entries before it are not selected); and when no entry
    is selected the constructor raises [RuntimeError] "Could not find
    Distil endpoint in catalog". *)
Theorem endpoint_is_first_selected_entry env args w :
  truthy (Arg.session args) = false ->
  truthy (Arg.distil_url args) = false ->
  (forall c w',
     run (Client_init env args) w = (Ok c, w') ->
     exists kc catalog service_type et pre e post,
       keystone_client c = Some (Keystone kc)
       /\ Arg.service_type args = VStr service_type
       /\ Arg.endpoint_type args = VStr et
       /\ get_endpoints kc (Arg.service_type args) = Ok catalog
       /\ dict_get catalog service_type [] = pre ++ e :: post
       /\ Forall (fun x => entry_selected et (Arg.region_name args) x = false) pre
       /\ entry_selected et (Arg.region_name args) e = true
       /\ httpclient.endpoint_url (client c) = entry_url et e)
  /\ (forall self kc tok w1 catalog service_type et,
        run (credential_resolution env args) w =
          (Ok (self, Some (Keystone kc), tok), w1) ->
        truthy tok = true ->
        Arg.service_type args = VStr service_type ->
        Arg.endpoint_type args = VStr et ->
        get_endpoints kc (Arg.service_type args) = Ok catalog ->
        Forall (fun x => entry_selected et (Arg.region_name args) x = false)
               (dict_get catalog service_type []) ->
        run (Client_init env args) w =
        (Raise (RuntimeError "Could not find Distil endpoint in catalog"),
         after_calls w1 [CallGetEndpoints (Arg.service_type args)])).
Proof.
  intros Hs Hu. split.
  - intros c w' Hr.
    apply Client_init_Ok in Hr
      as (self & kc & tok & url & w2 & He & Hurl & _ & Hkc & _ & Hcu).
    rewrite Hkc, Hcu. clear Hkc Hcu.
    apply endpoint_resolution_Ok in He as (w1 & Hc & Htok & Hrun).
    rewrite Hs, Hu in Hrun. cbn [andb negb] in Hrun.
    apply credential_resolution_Ok in Hc
      as [_ [(_ & Hu' & _) | [(_ & Hs' & _) | (_ & _ & k & w0 & -> & _ & _)]]];
      [congruence | congruence |].
    unfold endpoint_of_catalog in Hrun.
    apply bind_Ok in Hrun as (catalog & w3 & Hg & Hrun).
    rewrite run_perform in Hg. injection Hg as Hg _.
    apply bind_Ok in Hrun as (entries & w4 & Hv & Hrun).
    unfold value_get in Hv.
    destruct (Arg.service_type args) as [| | | service_type | |] eqn:Hst;
      try (rewrite run_ret in Hv; injection Hv as <- <-;
           rewrite run_ret in Hrun; injection Hrun as <- <-; congruence);
      [| rewrite run_raise in Hv; discriminate Hv].
    rewrite run_ret in Hv. injection Hv as <- <-.
    destruct (dict_get catalog service_type []) as [| e0 rest] eqn:Hentries.
    { rewrite run_ret in Hrun. injection Hrun as <- <-. congruence. }
    destruct (Arg.endpoint_type args) as [| | | et | |] eqn:Het;
      try (rewrite run_raise in Hrun; discriminate Hrun).
    rewrite run_ret in Hrun. injection Hrun as Hscan _.
    rewrite <- Hscan in Hurl |- *.
    destruct (scan_catalog_truthy et (Arg.region_name args) (e0 :: rest)
                (Arg.distil_url args) Hu Hurl)
      as (pre & e & post & Hl & Hpre & Hsel & Heq).
    exists k, catalog, service_type, et, pre, e, post.
    repeat split; auto;
      first [rewrite Hentries; exact Hl | exact Heq].
  - intros self kc tok w1 catalog service_type et Hc Htok Hst Het Hg Hnone.
    unfold Client_init, endpoint_resolution.
    rewrite !run_bind, Hc. cbn beta iota.
    rewrite run_bind, Htok. cbn [negb when_]. rewrite run_ret. cbn beta iota.
    rewrite Hs, Hu. cbn [andb negb]. rewrite run_bind.
    unfold endpoint_of_catalog. rewrite run_bind, run_perform, Hg.
    cbn beta iota. rewrite Hst. cbn [value_get]. rewrite run_bind, run_ret.
    cbn beta iota. rewrite Het.
    assert (Hscan : run
      match dict_get catalog service_type [] with
      | [] => mret (Arg.distil_url args)
      | _ :: _ =>
          mret (scan_catalog et (Arg.region_name args)
                  (dict_get catalog service_type []) (Arg.distil_url args))
      end (after_calls w1 [CallGetEndpoints (VStr service_type)])
      = (Ok (Arg.distil_url args),
         after_calls w1 [CallGetEndpoints (VStr service_type)])).
    { rewrite (scan_catalog_none _ _ _ _ Hnone).
      destruct (dict_get catalog service_type []); reflexivity. }
    unfold after_calls in Hscan.
    destruct (dict_get catalog service_type []) eqn:Hentries.
    + rewrite run_ret. cbn beta iota. rewrite run_ret. cbn beta iota.
      rewrite run_bind, Hu. reflexivity.
    + rewrite Hscan. cbn beta iota. rewrite run_ret. cbn beta iota.
      rewrite run_bind, Hu. reflexivity.
Qed.

(** C3, at a password login in the region nz-por-1, where the first
    entry is an admin endpoint and the second one lies in another region,
    and at the same login in a region without endpoint. *)
Lemma endpoint_is_first_selected_entry_witness :
  (exists c w',
     run (Client_init (identity_env both_versions) password_login_args)
         empty_world = (Ok c, w')
     /\ httpclient.endpoint_url (client c) = VStr "http://distil.por"
     /\ exists kc catalog service_type et pre e post,
          keystone_client c = Some (Keystone kc)
          /\ Arg.service_type password_login_args = VStr service_type
          /\ Arg.endpoint_type password_login_args = VStr et
          /\ get_endpoints kc (Arg.service_type password_login_args) = Ok catalog
          /\ dict_get catalog service_type [] = pre ++ e :: post
          /\ Forall (fun x => entry_selected et
                       (Arg.region_name password_login_args) x = false) pre
          /\ entry_selected et (Arg.region_name password_login_args) e = true
          /\ httpclient.endpoint_url (client c) = entry_url et e)
  /\ run (Client_init (identity_env both_versions) unknown_region_args)
         empty_world =
     (Raise (RuntimeError "Could not find Distil endpoint in catalog"),
      mkWorld []
        [ CallDiscover (VStr "http://keystone"); CallUrlFor "v2.0";
          CallUrlFor "v3.0"; CallKeystoneClient (3, 0); CallAuthenticate;
          CallGetEndpoints (VStr "rating") ]).
Proof.
  split.
  - evaluate_run Hr
      (Client_init (identity_env both_versions) password_login_args)
      empty_world.
    eexists _, _. split; [exact Hr |]. split; [reflexivity |].
    destruct (endpoint_is_first_selected_entry (identity_env both_versions)
                password_login_args empty_world eq_refl eq_refl) as [Hok _].
    exact (Hok _ _ Hr).
  - destruct (endpoint_is_first_selected_entry (identity_env both_versions)
                unknown_region_args empty_world eq_refl eq_refl)
      as [_ Hnone].
    assert (Hc :
      run (credential_resolution (identity_env both_versions)
             unknown_region_args) empty_world =
      (Ok (resolved_attrs unknown_region_args, Some (Keystone sample_keystone),
           VStr "token"),
       mkWorld []
         [ CallDiscover (VStr "http://keystone"); CallUrlFor "v2.0";
           CallUrlFor "v3.0"; CallKeystoneClient (3, 0); CallAuthenticate ]))
      by (vm_compute; reflexivity).
    apply (Hnone _ _ _ _ sample_catalog "rating" "publicURL" Hc);
      try reflexivity.
    vm_compute. repeat constructor.
Defined.

(** ** [Resource] *)

(** C6.  Two resources are equal exactly when both carry an identifier
    and the identifiers are equal, or neither carries one and the backing
    mappings are equal; they are unequal when exactly one carries an
    identifier; and [!=] is the negation of [==]. *)
Theorem Resource_equality {V : Type} `{EqDecision V} (r1 r2 : @base.Resource V) :
  (base.Resource_eq r1 r2 = true <->
     (exists i, base.identifier r1 = Some i /\ base.identifier r2 = Some i)
     \/ (base.identifier r1 = None /\ base.identifier r2 = None
         /\ base._info r1 = base._info r2))
  /\ ((is_Some (base.identifier r1) /\ base.identifier r2 = None)
      \/ (base.identifier r1 = None /\ is_Some (base.identifier r2)) ->
      base.Resource_eq r1 r2 = false)
  /\ base.Resource_ne r1 r2 = negb (base.Resource_eq r1 r2).
Proof.
  unfold base.Resource_ne, base.Resource_eq.
  destruct (base.identifier r1) as [i1 |] eqn:H1,
           (base.identifier r2) as [i2 |] eqn:H2.
  - split; [| split; [| reflexivity]].
    + rewrite bool_decide_eq_true. split.
      * intros ->. left. eauto.
      * intros [(i & [= ->] & [= ->]) | (Hn & _)]; [reflexivity | discriminate Hn].
    + intros [(_ & Hn) | (Hn & _)]; discriminate Hn.
  - split; [| split; reflexivity].
    split; [discriminate |].
    intros [(i & _ & Hn) | (Hn & _)]; discriminate Hn.
  - split; [| split; reflexivity].
    split; [discriminate |].
    intros [(i & Hn & _) | (_ & Hn & _)]; discriminate Hn.
  - split; [| split; [| reflexivity]].
    + rewrite bool_decide_eq_true. split.
      * intros Heq. right. auto.
      * intros [(i & Hn & _) | (_ & _ & Heq)]; [discriminate Hn | exact Heq].
    + intros [([i Hn] & _) | (_ & [i Hn])]; discriminate Hn.
Qed.

(** C6, at the resources of [test_eq]: same identifier and different
    names, equal; an identifier on one side only, unequal. *)
Lemma Resource_equality_witness :
  base.Resource_eq hi_resource hello_resource = true
  /\ base.Resource_ne hi_resource hello_resource = false
  /\ base.Resource_eq hi_resource joe_resource = false.
Proof.
  destruct (Resource_equality hi_resource hello_resource) as (Heq & _ & Hne).
  destruct (Resource_equality hi_resource joe_resource) as (_ & Hone & _).
  assert (He : base.Resource_eq hi_resource hello_resource = true).
  { apply Heq. left. exists (VInt 1). split; reflexivity. }
  split; [exact He |]. split.
  - rewrite Hne, He. reflexivity.
  - apply Hone. left. split; [exists (VInt 1) |]; reflexivity.
Defined.

(** The assertions of [test_eq]. *)
Example test_eq_same_id :
  base.Resource_eq hi_resource hello_resource = true
  /\ base.Resource_ne hi_resource hello_resource = false.
Proof. split; vm_compute; reflexivity. Qed.

Example test_eq_no_id :
  base.Resource_eq joe_resource joe_resource = true
  /\ base.Resource_ne joe_resource joe_resource = false.
Proof. split; vm_compute; reflexivity. Qed.

Example one_id_only :
  base.Resource_eq hi_resource joe_resource = false
  /\ base.Resource_ne hi_resource joe_resource = true.
Proof. split; vm_compute; reflexivity. Qed.

(** ** [ProductManager.list] *)

(** C8.  Without filter values (none given, or an empty list) the request
    goes to the bare path /v2/products; with values it goes to the path
    followed by ?regions= and the values joined by commas in the order
    given, as for nz-hlz-1 and nz-por-1. *)
Theorem ProductManager_list_url :
  products.ProductManager_list None
    = products.mkListRequest "/v2/products" "products"
  /\ products.ProductManager_list (Some [])
      = products.mkListRequest "/v2/products" "products"
  /\ (forall r regions,
        products.ProductManager_list (Some (r :: regions))
        = products.mkListRequest
            ("/v2/products?regions=" +:+ join "," (r :: regions)) "products")
  /\ products.ProductManager_list (Some ["nz-hlz-1"; "nz-por-1"])
      = products.mkListRequest "/v2/products?regions=nz-hlz-1,nz-por-1"
          "products".
Proof. repeat split. Qed.

(** ** [Resource.__repr__] *)

Section repr.
Context {V : Type} (str : V -> string) (r : @base.Resource V).

(** The names that are rendered are the keys of the backing mapping. *)
Lemma reprkeys_elem_of k :
  k ∈ base.reprkeys r <-> is_Some (base._info r !! k).
Proof.
  unfold base.reprkeys. rewrite merge_sort_Permutation, list_elem_of_fmap.
  split.
  - intros ([k' v] & -> & Hin). apply elem_of_map_to_list in Hin. eauto.
  - intros [v Hv]. exists (k, v). split; [reflexivity |].
    apply elem_of_map_to_list. exact Hv.
Qed.

Lemma reprkeys_NoDup : NoDup (base.reprkeys r).
Proof.
  unfold base.reprkeys. rewrite merge_sort_Permutation.
  apply NoDup_fst_map_to_list.
Qed.

Lemma reprkeys_sorted : StronglySorted String.le (base.reprkeys r).
Proof. apply StronglySorted_merge_sort; apply _. Qed.

(** Over keys of the mapping, rendering name by name is rendering the
    list of pairs. *)
Lemma fields_of_keys (keys : list string) :
  (forall k, k ∈ keys -> is_Some (base._info r !! k)) ->
  (omap (fun k => (fun v => (k, v)) <$> base._info r !! k) keys).*1 = keys
  /\ omap (base.field_repr str r) keys =
     (fun kv => kv.1 +:+ "=" +:+ str kv.2)
       <$> omap (fun k => (fun v => (k, v)) <$> base._info r !! k) keys.
Proof.
  induction keys as [| k keys IH]; intros Hk; [split; reflexivity |].
  destruct IH as [IH1 IH2].
  { intros k' Hin. apply Hk. right. exact Hin. }
  destruct (Hk k) as [v Hv]; [left |].
  unfold base.field_repr in *. cbn [omap list_omap]. rewrite Hv.
  cbn [fmap option_fmap option_map list_fmap fst snd].
  split; f_equal; assumption.
Qed.

Lemma sorted_fields_keys : (sorted_fields r).*1 = base.reprkeys r.
Proof.
  apply fields_of_keys. intros k. apply reprkeys_elem_of.
Qed.

Lemma sorted_fields_elem_of k v :
  (k, v) ∈ sorted_fields r <-> base._info r !! k = Some v.
Proof.
  unfold sorted_fields. rewrite list_elem_of_omap. split.
  - intros (k' & _ & Hf). destruct (base._info r !! k') as [v' |] eqn:Hl;
      [| discriminate Hf].
    injection Hf as -> ->. exact Hl.
  - intros Hl. exists k. split.
    + apply reprkeys_elem_of. eauto.
    + rewrite Hl. reflexivity.
Qed.

End repr.

(** C7.  The printable form of a resource is
    <ClassName name1=value1, name2=value2>, over the fields of the backing
    mapping, each once, in the alphabetical order of their names; the
    resource of foo=bar and baz=spam prints as <Resource baz=spam,
    foo=bar>. *)
Theorem Resource_repr_alphabetical {V : Type} (str : V -> string)
    (r : @base.Resource V) :
  let fields := sorted_fields r in
  base.Resource_repr str r =
    "<" +:+ base.class_name r +:+ " "
        +:+ join ", " ((fun kv => kv.1 +:+ "=" +:+ str kv.2) <$> fields)
        +:+ ">"
  /\ (forall k v, (k, v) ∈ fields <-> base._info r !! k = Some v)
  /\ NoDup fields.*1
  /\ StronglySorted String.le fields.*1
  /\ base.Resource_repr (fun s => s) repr_resource = "<Resource baz=spam, foo=bar>".
Proof.
  intros fields. subst fields. rewrite (sorted_fields_keys str).
  split; [| split; [| split; [| split]]].
  - unfold base.Resource_repr. cbv zeta.
    destruct (fields_of_keys str r (base.reprkeys r)) as [_ ->];
      first [reflexivity | intros k; apply reprkeys_elem_of].
  - apply sorted_fields_elem_of.
  - apply reprkeys_NoDup.
  - apply reprkeys_sorted.
  - vm_compute. reflexivity.
Qed.

(** * Further properties of distilclient/v2/client.py *)

(** ** What a computation logs *)

Lemma logs_ret {A} P (a : A) : logs [] P (mret a).
Proof.
  intros w r w' [= <- <-]. rewrite app_nil_r. split; [reflexivity |].
  exists []. rewrite app_nil_r. split; [reflexivity | constructor].
Qed.

Lemma logs_raise {A} P e : logs [] P (raise e : M A).
Proof.
  intros w r w' [= <- <-]. rewrite app_nil_r. split; [reflexivity |].
  exists []. rewrite app_nil_r. split; [reflexivity | constructor].
Qed.

Lemma logs_lift {A} P (o : outcome A) : logs [] P (lift o).
Proof.
  intros w r w' [= <- <-]. rewrite app_nil_r. split; [reflexivity |].
  exists []. rewrite app_nil_r. split; [reflexivity | constructor].
Qed.

Lemma logs_perform {A} (P : call -> Prop) c (o : outcome A) :
  P c -> logs [] P (perform c o).
Proof.
  intros Hc w r w' [= <- <-]. cbn [warnings calls]. rewrite app_nil_r.
  split; [reflexivity |]. exists [c]. split; [reflexivity |].
  constructor; [exact Hc | constructor].
Qed.

(** Warnings come first: what follows them warns no more. *)
Lemma logs_bind {A B} ws P (m : M A) (f : A -> M B) :
  logs ws P m -> (forall a, logs [] P (f a)) -> logs ws P (m ≫= f).
Proof.
  intros Hm Hf w r w'. rewrite run_bind.
  destruct (run m w) as [[a | e] w1] eqn:Hr;
    destruct (Hm _ _ _ Hr) as (Hw1 & evs1 & Hc1 & HP1).
  - intros Hr2. destruct (Hf a _ _ _ Hr2) as (Hw2 & evs2 & Hc2 & HP2).
    split.
    + rewrite Hw2, Hw1, app_nil_r. reflexivity.
    + exists (evs1 ++ evs2). split.
      * rewrite Hc2, Hc1, app_assoc. reflexivity.
      * apply Forall_app. split; assumption.
  - intros [= <- <-]. split; [exact Hw1 |]. exists evs1. split; assumption.
Qed.

Lemma logs_when P b e : logs [] P (when_ b (raise e)).
Proof. destruct b; [apply logs_raise | apply logs_ret]. Qed.

Lemma logs_check_deprecated_arguments P kwargs :
  logs (deprecation_warnings kwargs) P (check_deprecated_arguments kwargs).
Proof.
  intros w r w'. rewrite check_deprecated_arguments_run. intros [= <- <-].
  cbn [warnings calls]. split; [reflexivity |].
  exists []. rewrite app_nil_r. split; [reflexivity | constructor].
Qed.

Lemma logs_get_keystone_client (P : call -> Prop) env self :
  P (CallDiscover (auth_url self)) ->
  P (CallUrlFor "v2.0") -> P (CallUrlFor "v3.0") ->
  P (CallKeystoneClient (2, 0)) -> P (CallKeystoneClient (3, 0)) ->
  P CallAuthenticate ->
  logs [] P (_get_keystone_client env self).
Proof.
  intros Hd H2 H3 Hk2 Hk3 Ha. unfold _get_keystone_client. cbv zeta.
  apply logs_bind; [apply logs_perform; exact Hd | intros url_for].
  apply logs_bind; [apply logs_perform; exact H2 | intros v2].
  apply logs_bind; [apply logs_perform; exact H3 | intros v3].
  apply logs_bind.
  - destruct (truthy v3); [apply logs_perform; exact Hk3 |].
    destruct (truthy v2); [apply logs_perform; exact Hk2 | apply logs_raise].
  - intros kc. apply logs_bind; [apply logs_perform; exact Ha | intros _].
    apply logs_ret.
Qed.

Lemma logs_getattr P env obj name : logs [] P (getattr_ env obj name).
Proof. destruct obj; first [apply logs_lift | apply logs_raise]. Qed.

Lemma logs_load_each (P : call -> Prop) env l set :
  (forall mc, truthy mc = true -> P (CallManagerClass mc)) ->
  logs [] P (load_each env l set).
Proof.
  intros HP. revert set. induction l as [| x l IH]; intros set.
  - apply logs_ret.
  - cbn [load_each]. apply logs_bind; [apply logs_getattr | intros mc].
    destruct (truthy mc) eqn:Hmc; [| apply IH].
    apply logs_bind; [apply logs_getattr | intros name].
    apply logs_bind; [apply logs_perform, HP, Hmc | intros mgr].
    destruct name; first [apply IH | apply logs_raise].
Qed.

Lemma logs_load_extensions (P : call -> Prop) env extensions :
  (forall mc, truthy mc = true -> truthy extensions = true ->
              P (CallManagerClass mc)) ->
  logs [] P (_load_extensions env extensions).
Proof.
  intros HP. unfold _load_extensions.
  destruct (truthy extensions) eqn:Hx; cbn [negb]; [| apply logs_ret].
  destruct extensions; try apply logs_raise.
  apply logs_load_each. intros mc Hmc. apply HP; [exact Hmc | reflexivity].
Qed.

Lemma logs_value_get {A} P (d : gmap string A) key dflt :
  logs [] P (value_get d key dflt).
Proof. destruct key; first [apply logs_ret | apply logs_raise]. Qed.

(** ** What the constructor logs *)

(** Discharge [permitted args c = true] from the truth values at hand. *)
Ltac permit :=
  unfold permitted; cbv zeta;
  repeat match goal with
         | H : truthy _ = _ |- _ => rewrite H
         end;
  rewrite ?bool_decide_eq_true_2 by reflexivity;
  try reflexivity; try assumption.

Lemma logs_endpoint_of_session P env kc auth et st region :
  P (CallGetEndpoint auth st) ->
  logs [] P (endpoint_of_session env kc auth et st region).
Proof.
  intros HP. destruct kc as [[] |]; cbn [endpoint_of_session];
    first [apply logs_perform; exact HP | apply logs_raise].
Qed.

Lemma logs_endpoint_of_catalog P kc et st region d :
  P (CallGetEndpoints st) ->
  logs [] P (endpoint_of_catalog kc et st region d).
Proof.
  intros HP. unfold endpoint_of_catalog. apply logs_bind.
  - destruct kc as [[] |]; first [apply logs_perform; exact HP | apply logs_raise].
  - intros catalog. apply logs_bind; [apply logs_value_get | intros entries].
    destruct entries; [apply logs_ret |].
    destruct et; first [apply logs_ret | apply logs_raise].
Qed.

(** The last part of the constructor, lines 178-199. *)
Lemma logs_build env args a :
  logs [] (fun c => permitted args c = true)
    (let '(self, keystone_client, input_auth_token, distil_url) := a in
     when_ (negb (truthy distil_url))
       (raise (RuntimeError "Could not find Distil endpoint in catalog")) ;;
     let api_version := Arg.api_version args in
     let client :=
       httpclient.mkHTTPClient distil_url input_auth_token (Arg.user_agent args)
         (Arg.insecure args) (Arg.cacert args) (Arg.timeout args)
         (Arg.retries args) (Arg.http_log_debug args) api_version in
     set ← _load_extensions env (Arg.extensions args);
     mret {| attrs := self;
             keystone_client := keystone_client;
             session := Arg.session args;
             api_version := api_version;
             client := client;
             measurements := MeasurementManager;
             invoices := InvoiceManager;
             quotations := QuotationManager;
             credits := CreditManager;
             products := ProductManager;
             health := HealthManager;
             extension_attrs := set |}).
Proof.
  destruct a as [[[self kc] tok] url].
  apply logs_bind; [apply logs_when | intros _]. cbv zeta.
  apply logs_bind; [| intros set; apply logs_ret].
  apply logs_load_extensions. intros mc Hmc Hx. permit.
Qed.

(** Whatever the collaborators answer and however the constructor ends,
    it has warned exactly the deprecation warnings and has had only
    interactions that the invocation permits. *)
Lemma Client_init_logs env args :
  logs (deprecation_warnings (Arg.kwargs args))
       (fun c => permitted args c = true) (Client_init env args).
Proof.
  destruct (truthy (Arg.input_auth_token args)) eqn:Htok,
           (truthy (Arg.distil_url args)) eqn:Hurl.
  2: { (* the token guard *)
    intros w r w'. unfold Client_init, endpoint_resolution.
    rewrite !run_bind, (credential_resolution_guard env args w Htok Hurl).
    intros [= <- <-]. cbn [warnings calls]. split; [reflexivity |].
    exists []. rewrite app_nil_r. split; [reflexivity | constructor]. }
  all: unfold Client_init; apply logs_bind; [| apply logs_build].
  all: unfold endpoint_resolution; apply logs_bind.
  all: try (intros [[self kc] tok];
            apply logs_bind; [apply logs_when | intros _];
            apply logs_bind; [| intros url; apply logs_ret];
            rewrite Hurl; cbn [negb andb];
            rewrite ?andb_false_r, ?andb_true_r; try apply logs_ret).
  all: try (destruct (truthy (Arg.session args)) eqn:Hs;
            [ apply logs_endpoint_of_session; permit
            | apply logs_endpoint_of_catalog; permit ]).
  all: unfold credential_resolution; cbv zeta.
  all: apply logs_bind; [apply logs_check_deprecated_arguments | intros _].
  all: apply logs_bind; [apply logs_when | intros _].
  all: rewrite Htok; cbn [negb]; try apply logs_ret.
  all: destruct (truthy (Arg.session args)) eqn:Hs.
  all: try (apply logs_bind; [apply logs_perform; permit | intros t; apply logs_ret]).
  all: apply logs_bind; [| intros kc; apply logs_ret].
  all: apply logs_get_keystone_client; permit.
Qed.


(** X2.  However the constructor ends, its interactions with the
    collaborators are permitted by the invocation: the session is asked
    for a token only without token and with a session, and for the
    endpoint only if moreover no URL was given; the identity service is
    discovered and a keystone client created and authenticated only
    without token and without session, and its catalog read only if
    moreover no URL was given; a manager class is called only when it is
    truthy and extensions were given. *)
Theorem constructor_interactions_permitted env args w :
  exists evs,
    calls (run (Client_init env args) w).2 = calls w ++ evs
    /\ Forall (fun c => permitted args c = true) evs.
Proof.
  destruct (run (Client_init env args) w) as [r w'] eqn:Hr.
  exact (proj2 (Client_init_logs env args w r w' Hr)).
Qed.

(** ** The three ways to a token *)

(** What [endpoint_resolution] is once [credential_resolution] has
    returned. *)
Lemma endpoint_resolution_after env args w self kc tok w1 :
  run (credential_resolution env args) w = (Ok (self, kc, tok), w1) ->
  truthy tok = true ->
  run (endpoint_resolution env args) w =
  match
    run (if truthy (Arg.session args) && negb (truthy (Arg.distil_url args)) then
           endpoint_of_session env kc (Arg.auth args)
             (Arg.endpoint_type args) (Arg.service_type args)
             (Arg.region_name args)
         else if negb (truthy (Arg.distil_url args)) then
           endpoint_of_catalog kc (Arg.endpoint_type args)
             (Arg.service_type args) (Arg.region_name args)
             (Arg.distil_url args)
         else mret (Arg.distil_url args)) w1
  with
  | (Ok url, w2) => (Ok (self, kc, tok, url), w2)
  | (Raise e, w2) => (Raise e, w2)
  end.
Proof.
  intros Hc Htok. unfold endpoint_resolution.
  rewrite run_bind, Hc. cbn beta iota.
  rewrite run_bind, Htok. cbn [negb when_]. rewrite run_ret. cbn beta iota.
  rewrite run_bind.
  match goal with |- context [run ?m w1] => destruct (run m w1) as [[url | e] w2] end;
    reflexivity.
Qed.




(** With a session and no token, [credential_resolution] is the
    deprecation warnings and one question to the session. *)
Lemma credential_resolution_session env args w :
  truthy (Arg.input_auth_token args) = false ->
  truthy (Arg.session args) = true ->
  run (credential_resolution env args) w =
  (match session_get_token env (Arg.session args) (Arg.auth args) with
   | Ok t => Ok (resolved_attrs args, Some (session_adapter args), t)
   | Raise e => Raise e
   end,
   after_calls (after_warnings w args)
     [CallGetToken (Arg.session args) (Arg.auth args)]).
Proof.
  intros Htok Hs. unfold credential_resolution.
  rewrite run_bind, check_deprecated_arguments_run. cbn beta iota.
  rewrite Htok, Hs. cbn [andb negb when_].
  rewrite run_bind, run_ret. cbn beta iota. rewrite run_bind, run_perform.
  destruct (session_get_token env (Arg.session args) (Arg.auth args));
    reflexivity.
Qed.

(** X4.  With a session and no token the constructor asks the session
    for a token, once and before anything else: an exception of
    [get_token] leaves the constructor unchanged, a token that is not
    truthy makes it raise [RuntimeError] "Not Authorized", and otherwise
    the keystone client is the adapter of that session, for the service
    name that [share_service_name] overrides when it is supplied. *)
Theorem session_is_asked_for_the_token env args w :
  truthy (Arg.input_auth_token args) = false ->
  truthy (Arg.session args) = true ->
  let asked :=
    after_calls (after_warnings w args)
      [CallGetToken (Arg.session args) (Arg.auth args)] in
  (forall e,
     session_get_token env (Arg.session args) (Arg.auth args) = Raise e ->
     run (Client_init env args) w = (Raise e, asked))
  /\ (forall t,
        session_get_token env (Arg.session args) (Arg.auth args) = Ok t ->
        truthy t = false ->
        run (Client_init env args) w =
        (Raise (RuntimeError "Not Authorized"), asked))
  /\ (forall t,
        session_get_token env (Arg.session args) (Arg.auth args) = Ok t ->
        run (credential_resolution env args) w =
        (Ok (resolved_attrs args,
             Some (LegacyJsonAdapter (Arg.session args) (Arg.auth args)
                     (Arg.endpoint_type args) (Arg.service_type args)
                     (match Arg.kwargs args !! "share_service_name" with
                      | Some name => name
                      | None => Arg.service_name args
                      end)
                     (Arg.region_name args)),
             t),
         asked)).
Proof.
  intros Htok Hs asked. subst asked.
  pose proof (credential_resolution_session env args w Htok Hs) as Hc.
  split; [| split].
  - intros e He. rewrite He in Hc.
    unfold Client_init, endpoint_resolution. rewrite !run_bind, Hc. reflexivity.
  - intros t Ht Hfalsy. rewrite Ht in Hc.
    unfold Client_init, endpoint_resolution. rewrite !run_bind, Hc.
    cbn beta iota. rewrite run_bind, Hfalsy. reflexivity.
  - intros t Ht. rewrite Ht in Hc. rewrite Hc. unfold session_adapter, dict_get.
    destruct (Arg.kwargs args !! "share_service_name"); reflexivity.
Qed.

Lemma session_is_asked_for_the_token_witness :
  run (Client_init (session_env (Raise (External "Unauthorized")) (Ok VNone))
         session_login_args) empty_world =
  (Raise (External "Unauthorized"), mkWorld [] [CallGetToken (VObj 0) (VObj 1)])
  /\ run (Client_init tokenless_env session_login_args) empty_world =
     (Raise (RuntimeError "Not Authorized"),
      mkWorld [] [CallGetToken (VObj 0) (VObj 1)]).
Proof.
  split.
  - destruct (session_is_asked_for_the_token
                (session_env (Raise (External "Unauthorized")) (Ok VNone))
                session_login_args empty_world eq_refl eq_refl)
      as (Hraise & _ & _).
    exact (Hraise _ eq_refl).
  - destruct (session_is_asked_for_the_token tokenless_env session_login_args
                empty_world eq_refl eq_refl) as (_ & Hnone & _).
    exact (Hnone VNone eq_refl eq_refl).
Defined.





(** ** The attributes *)



(** ** [_get_keystone_client] once more *)

(** X8.  The session of the keystone client verifies certificates unless
    [insecure] is set: its [verify] is truthy exactly when [insecure] is
    not, it is the CA bundle when one is given, and the client
    certificate is passed on. *)
Theorem tls_verification_unless_insecure (self : Attrs) :
  truthy (verify (keystone_session self)) = negb (truthy (insecure self))
  /\ (truthy (insecure self) = false -> truthy (cacert self) = true ->
      verify (keystone_session self) = cacert self)
  /\ session_cert (keystone_session self) = cert self.
Proof.
  unfold keystone_session, py_or. cbn [verify session_cert].
  destruct (truthy (insecure self)); cbn [negb].
  - repeat split; intros; discriminate.
  - destruct (truthy (cacert self)) eqn:Hca; repeat split; intros;
      first [assumption | reflexivity | discriminate].
Qed.

(** X9.  Failures of the identity service leave the constructor as they
    are, and nothing is contacted after them: an exception of the
    discovery after the discovery alone; an exception of [authenticate]
    of the version 3 client after it, without any read of the catalog;
    and a keystone client whose token is not truthy makes the constructor
    raise [RuntimeError] "Not Authorized". *)
Theorem identity_failures_propagate env args w :
  let self := resolved_attrs args in
  truthy (Arg.input_auth_token args) = false ->
  truthy (Arg.session args) = false ->
  (forall e,
     discover_Discover env (keystone_session self) (auth_url self) = Raise e ->
     run (Client_init env args) w =
     (Raise e, after_calls (after_warnings w args) [CallDiscover (auth_url self)]))
  /\ (forall url_for v2_auth_url v3_auth_url kc,
        discover_Discover env (keystone_session self) (auth_url self) = Ok url_for ->
        url_for "v2.0" = Ok v2_auth_url ->
        url_for "v3.0" = Ok v3_auth_url ->
        truthy v3_auth_url = true ->
        ks_client_Client env
          (v3_arguments self (keystone_session self) v3_auth_url) = Ok kc ->
        let contacted :=
          after_calls (after_warnings w args)
            [ CallDiscover (auth_url self); CallUrlFor "v2.0"; CallUrlFor "v3.0";
              CallKeystoneClient (3, 0); CallAuthenticate ] in
        (forall e, authenticate kc = Raise e ->
                   run (Client_init env args) w = (Raise e, contacted))
        /\ (authenticate kc = Ok tt -> truthy (auth_token kc) = false ->
            run (Client_init env args) w =
            (Raise (RuntimeError "Not Authorized"), contacted))).
Proof.
  intros self Htok Hs.
  pose proof (credential_resolution_keystone env args w Htok Hs) as Hc.
  fold self in Hc. split.
  - intros e Hd.
    assert (Hk : run (_get_keystone_client env self) (after_warnings w args) =
                 (Raise e, after_calls (after_warnings w args)
                             [CallDiscover (auth_url self)])).
    { unfold _get_keystone_client. cbv zeta.
      rewrite run_bind, run_perform, Hd. reflexivity. }
    rewrite Hk in Hc. unfold Client_init, endpoint_resolution.
    rewrite !run_bind, Hc. reflexivity.
  - intros url_for v2 v3 kc Hd H2 H3 Ht3 Hk contacted. subst contacted. split.
    + intros e Ha.
      assert (Hg : run (_get_keystone_client env self) (after_warnings w args) =
                   (Raise e, after_calls (after_warnings w args)
                      [ CallDiscover (auth_url self); CallUrlFor "v2.0";
                        CallUrlFor "v3.0"; CallKeystoneClient (3, 0);
                        CallAuthenticate ])).
      { unfold _get_keystone_client. cbv zeta. discovery Hd H2 H3.
        rewrite Ht3, !run_bind, run_perform, Hk. cbn beta iota.
        rewrite run_bind, run_perform, Ha. cbn beta iota. same_log. }
      rewrite Hg in Hc. unfold Client_init, endpoint_resolution.
      rewrite !run_bind, Hc. reflexivity.
    + intros Ha Hfalsy.
      destruct (get_keystone_client_discovered env self (after_warnings w args)
                  url_for v2 v3 Hd H2 H3) as (Hv3 & _ & _).
      rewrite (Hv3 Ht3 kc Hk Ha) in Hc.
      unfold Client_init, endpoint_resolution. rewrite !run_bind, Hc.
      cbn beta iota. rewrite run_bind, Hfalsy. cbn [negb when_].
      rewrite run_raise. same_log.
Qed.

Lemma identity_failures_propagate_witness :
  run (Client_init unreachable_env password_login_args) empty_world =
  (Raise (External "ConnectionRefused"),
   mkWorld [] [CallDiscover (VStr "http://keystone")])
  /\ run (Client_init
            (keystone_env (keystone_with (Raise (External "Unauthorized"))
                             (VStr "token") sample_catalog))
            password_login_args) empty_world =
     (Raise (External "Unauthorized"),
      mkWorld []
        [ CallDiscover (VStr "http://keystone"); CallUrlFor "v2.0";
          CallUrlFor "v3.0"; CallKeystoneClient (3, 0); CallAuthenticate ])
  /\ run (Client_init
            (keystone_env (keystone_with (Ok tt) VNone sample_catalog))
            password_login_args) empty_world =
     (Raise (RuntimeError "Not Authorized"),
      mkWorld []
        [ CallDiscover (VStr "http://keystone"); CallUrlFor "v2.0";
          CallUrlFor "v3.0"; CallKeystoneClient (3, 0); CallAuthenticate ]).
Proof.
  split; [| split].
  - destruct (identity_failures_propagate unreachable_env password_login_args
                empty_world eq_refl eq_refl) as [Hd _].
    exact (Hd _ eq_refl).
  - destruct (identity_failures_propagate
                (keystone_env (keystone_with (Raise (External "Unauthorized"))
                                 (VStr "token") sample_catalog))
                password_login_args empty_world eq_refl eq_refl) as [_ Hk].
    destruct (Hk both_versions (VStr "http://keystone/v2.0")
                (VStr "http://keystone/v3") _ eq_refl eq_refl eq_refl eq_refl
                eq_refl) as [Ha _].
    exact (Ha _ eq_refl).
  - destruct (identity_failures_propagate
                (keystone_env (keystone_with (Ok tt) VNone sample_catalog))
                password_login_args empty_world eq_refl eq_refl) as [_ Hk].
    destruct (Hk both_versions (VStr "http://keystone/v2.0")
                (VStr "http://keystone/v3") _ eq_refl eq_refl eq_refl eq_refl
                eq_refl) as [_ Hn].
    exact (Hn eq_refl eq_refl).
Defined.

(** ** The catalog once more *)

(** Without session and without URL, once a keystone client with a truthy
    token is there, the endpoint is the result of the scan of its
    catalog. *)
Lemma endpoint_resolution_catalog env args w self kc tok w1 catalog st et :
  truthy (Arg.session args) = false ->
  truthy (Arg.distil_url args) = false ->
  run (credential_resolution env args) w =
    (Ok (self, Some (Keystone kc), tok), w1) ->
  truthy tok = true ->
  Arg.service_type args = VStr st ->
  Arg.endpoint_type args = VStr et ->
  get_endpoints kc (VStr st) = Ok catalog ->
  run (endpoint_resolution env args) w =
  (Ok (self, Some (Keystone kc), tok,
       scan_catalog et (Arg.region_name args) (dict_get catalog st [])
         (Arg.distil_url args)),
   after_calls w1 [CallGetEndpoints (VStr st)]).
Proof.
  intros Hs Hu Hc Htok Hst Het Hg.
  rewrite (endpoint_resolution_after env args w _ _ _ _ Hc Htok).
  rewrite Hs, Hu, Hst, Het. cbn [andb negb].
  unfold endpoint_of_catalog. rewrite run_bind, run_perform, Hg.
  cbn beta iota. cbn [value_get]. rewrite run_bind, run_ret. cbn beta iota.
  destruct (dict_get catalog st []); reflexivity.
Qed.

(** And the constructor fails when that result is not truthy. *)
Lemma catalog_without_endpoint env args w self kc tok w1 catalog st et :
  truthy (Arg.session args) = false ->
  truthy (Arg.distil_url args) = false ->
  run (credential_resolution env args) w =
    (Ok (self, Some (Keystone kc), tok), w1) ->
  truthy tok = true ->
  Arg.service_type args = VStr st ->
  Arg.endpoint_type args = VStr et ->
  get_endpoints kc (VStr st) = Ok catalog ->
  truthy (scan_catalog et (Arg.region_name args) (dict_get catalog st [])
            (Arg.distil_url args)) = false ->
  run (Client_init env args) w =
  (Raise (RuntimeError "Could not find Distil endpoint in catalog"),
   after_calls w1 [CallGetEndpoints (VStr st)]).
Proof.
  intros Hs Hu Hc Htok Hst Het Hg Hscan.
  unfold Client_init.
  rewrite run_bind,
    (endpoint_resolution_catalog env args w _ _ _ _ _ _ _ Hs Hu Hc Htok Hst Het Hg).
  cbn beta iota. rewrite run_bind, Hscan. reflexivity.
Qed.

(** X10.  The scan stops at the first selected entry even when that entry
    has no usable URL: if the first entry of the right interface and
    region carries no truthy URL, the constructor raises [RuntimeError]
    "Could not find Distil endpoint in catalog", whatever entries come
    after it. *)
Theorem first_selected_entry_without_url_fails
    env args w self kc tok w1 catalog st et pre e post :
  truthy (Arg.session args) = false ->
  truthy (Arg.distil_url args) = false ->
  run (credential_resolution env args) w =
    (Ok (self, Some (Keystone kc), tok), w1) ->
  truthy tok = true ->
  Arg.service_type args = VStr st ->
  Arg.endpoint_type args = VStr et ->
  get_endpoints kc (VStr st) = Ok catalog ->
  dict_get catalog st [] = pre ++ e :: post ->
  Forall (fun x => entry_selected et (Arg.region_name args) x = false) pre ->
  entry_selected et (Arg.region_name args) e = true ->
  truthy (entry_url et e) = false ->
  run (Client_init env args) w =
  (Raise (RuntimeError "Could not find Distil endpoint in catalog"),
   after_calls w1 [CallGetEndpoints (VStr st)]).
Proof.
  intros Hs Hu Hc Htok Hst Het Hg Hentries Hpre He Hurl.
  apply (catalog_without_endpoint env args w self kc tok w1 catalog st et);
    try assumption.
  rewrite Hentries, (scan_catalog_first _ _ _ _ _ _ Hpre He). exact Hurl.
Qed.

Lemma first_selected_entry_without_url_fails_witness :
  run (Client_init
         (keystone_env (keystone_with (Ok tt) (VStr "token") urlless_catalog))
         password_login_args) empty_world =
  (Raise (RuntimeError "Could not find Distil endpoint in catalog"),
   mkWorld []
     [ CallDiscover (VStr "http://keystone"); CallUrlFor "v2.0";
       CallUrlFor "v3.0"; CallKeystoneClient (3, 0); CallAuthenticate;
       CallGetEndpoints (VStr "rating") ]).
Proof.
  apply (first_selected_entry_without_url_fails
           (keystone_env (keystone_with (Ok tt) (VStr "token") urlless_catalog))
           password_login_args empty_world
           (resolved_attrs password_login_args)
           (keystone_with (Ok tt) (VStr "token") urlless_catalog)
           (VStr "token")
           (mkWorld []
              [ CallDiscover (VStr "http://keystone"); CallUrlFor "v2.0";
                CallUrlFor "v3.0"; CallKeystoneClient (3, 0); CallAuthenticate ])
           urlless_catalog "rating" "publicURL" []
           (list_to_map [ ("interface", VStr "public"); ("region", VStr "nz-por-1") ])
           [ list_to_map [ ("interface", VStr "public"); ("region", VStr "nz-por-1");
                           ("url", VStr "http://distil.por") ] ]
           eq_refl eq_refl);
    first [reflexivity | constructor].
Defined.

(** X11.  A catalog that does not list the service type at all is a
    catalog without endpoint: the constructor raises [RuntimeError]
    "Could not find Distil endpoint in catalog". *)
Theorem service_type_absent_from_catalog
    env args w self kc tok w1 catalog st et :
  truthy (Arg.session args) = false ->
  truthy (Arg.distil_url args) = false ->
  run (credential_resolution env args) w =
    (Ok (self, Some (Keystone kc), tok), w1) ->
  truthy tok = true ->
  Arg.service_type args = VStr st ->
  Arg.endpoint_type args = VStr et ->
  get_endpoints kc (VStr st) = Ok catalog ->
  catalog !! st = None ->
  run (Client_init env args) w =
  (Raise (RuntimeError "Could not find Distil endpoint in catalog"),
   after_calls w1 [CallGetEndpoints (VStr st)]).
Proof.
  intros Hs Hu Hc Htok Hst Het Hg Hnone.
  apply (catalog_without_endpoint env args w self kc tok w1 catalog st et);
    try assumption.
  unfold dict_get. rewrite Hnone. exact Hu.
Qed.

Lemma service_type_absent_from_catalog_witness :
  run (Client_init
         (keystone_env (keystone_with (Ok tt) (VStr "token") other_catalog))
         password_login_args) empty_world =
  (Raise (RuntimeError "Could not find Distil endpoint in catalog"),
   mkWorld []
     [ CallDiscover (VStr "http://keystone"); CallUrlFor "v2.0";
       CallUrlFor "v3.0"; CallKeystoneClient (3, 0); CallAuthenticate;
       CallGetEndpoints (VStr "rating") ]).
Proof.
  apply (service_type_absent_from_catalog
           (keystone_env (keystone_with (Ok tt) (VStr "token") other_catalog))
           password_login_args empty_world
           (resolved_attrs password_login_args)
           (keystone_with (Ok tt) (VStr "token") other_catalog)
           (VStr "token")
           (mkWorld []
              [ CallDiscover (VStr "http://keystone"); CallUrlFor "v2.0";
                CallUrlFor "v3.0"; CallKeystoneClient (3, 0); CallAuthenticate ])
           other_catalog "rating" "publicURL" eq_refl eq_refl);
    reflexivity.
Defined.

(** X12.  The catalog format of the version 2 identity service is
    understood: an entry that carries a truthy value under the endpoint
    type itself (as in publicURL) is taken whatever its interface says,
    and when it has no url key that value is the endpoint. *)
Theorem legacy_catalog_entry_is_selected et region e rest d u :
  e !! et = Some u ->
  truthy u = true ->
  e !! "url" = None ->
  region_differs region e = false ->
  scan_catalog et region (e :: rest) d = u.
Proof.
  intros He Hu Hurl Hregion. cbn [scan_catalog].
  rewrite Hregion. unfold interface_matches, entry_url, dict_get.
  rewrite He, Hurl. cbn [default from_option id]. rewrite Hu, orb_true_r.
  reflexivity.
Qed.

Lemma legacy_catalog_entry_is_selected_witness :
  scan_catalog "publicURL" (VStr "nz-por-1") [legacy_entry] VNone
  = VStr "http://distil.por".
Proof.
  apply (legacy_catalog_entry_is_selected "publicURL" (VStr "nz-por-1")
           legacy_entry [] VNone (VStr "http://distil.por"));
    reflexivity.
Defined.

(** X13.  Without a region the region of the entries plays no part: the
    scan takes the first entry whose interface matches. *)
Theorem no_region_takes_first_interface_match et region entries d :
  truthy region = false ->
  scan_catalog et region entries d =
  match List.find (interface_matches et) entries with
  | Some e => entry_url et e
  | None => d
  end.
Proof.
  intros Hr. induction entries as [| e rest IH]; [reflexivity |].
  cbn [scan_catalog List.find]. unfold region_differs at 1. rewrite Hr.
  cbn [andb]. destruct (interface_matches et e); [reflexivity | exact IH].
Qed.

Lemma no_region_takes_first_interface_match_witness :
  scan_catalog "publicURL" VNone (dict_get sample_catalog "rating" []) VNone
  = VStr "http://distil.hlz".
Proof.
  rewrite (no_region_takes_first_interface_match "publicURL" VNone
             (dict_get sample_catalog "rating" []) VNone eq_refl).
  reflexivity.
Defined.

(** ** [_load_extensions] *)

Lemma run_bind_ext {A B} (m : M A) (f g : A -> M B) w :
  (forall a w1, run (f a) w1 = run (g a) w1) ->
  run (m ≫= f) w = run (m ≫= g) w.
Proof.
  intros Hfg. rewrite !run_bind. destruct (run m w) as [[a | e] w1];
    [apply Hfg | reflexivity].
Qed.

Lemma load_each_skips env pre o post mc set w :
  extension_attr env o "manager_class" = Ok mc ->
  truthy mc = false ->
  run (load_each env (pre ++ VObj o :: post) set) w =
  run (load_each env (pre ++ post) set) w.
Proof.
  intros Hmc Hfalsy. revert set w.
  induction pre as [| x pre IH]; intros set w.
  - cbn [app load_each getattr_]. rewrite run_bind, run_lift, Hmc.
    cbn beta iota. rewrite Hfalsy. reflexivity.
  - cbn [app load_each]. apply run_bind_ext. intros mc' w1.
    destruct (truthy mc'); [| apply IH].
    apply run_bind_ext. intros name w2.
    apply run_bind_ext. intros mgr w3.
    destruct name; first [apply IH | reflexivity].
Qed.

(** X14.  An extension whose [manager_class] is not truthy counts for
    nothing: the constructor step that loads the extensions runs as if
    the descriptor were not in the list. *)
Theorem extension_without_manager_class_is_skipped env pre o post mc w :
  extension_attr env o "manager_class" = Ok mc ->
  truthy mc = false ->
  run (_load_extensions env (VList (pre ++ VObj o :: post))) w =
  run (_load_extensions env (VList (pre ++ post))) w.
Proof.
  intros Hmc Hfalsy.
  assert (Hall : forall l, run (_load_extensions env (VList l)) w =
                           run (load_each env l ∅) w).
  { intros [| x l]; reflexivity. }
  rewrite !Hall. apply (load_each_skips env pre o post mc ∅ w Hmc Hfalsy).
Qed.

Lemma extension_without_manager_class_is_skipped_witness :
  run (_load_extensions extension_env (VList [VObj 0; VObj 1; VObj 2])) empty_world
  = run (_load_extensions extension_env (VList [VObj 0; VObj 2])) empty_world.
Proof.
  apply (extension_without_manager_class_is_skipped extension_env
           [VObj 0] 1 [VObj 2] VNone empty_world); reflexivity.
Defined.

Lemma load_each_loadable env l set w :
  Forall (loadable env) l ->
  exists set',
    run (load_each env l set) w =
    (Ok set', after_calls w (CallManagerClass <$> omap (called_manager_class env) l)).
Proof.
  intros Hl. revert set w. induction Hl as [| x l Hx _ IH]; intros set w.
  - exists set. cbn. unfold after_calls. rewrite app_nil_r. destruct w; reflexivity.
  - destruct Hx as (o & mc & -> & Hmc & Hcall).
    cbn [load_each getattr_ omap list_omap called_manager_class].
    rewrite run_bind, run_lift, Hmc. cbn beta iota.
    destruct (truthy mc) eqn:Ht.
    + destruct (Hcall eq_refl) as (n & mgr & Hn & Hi).
      rewrite run_bind, run_lift, Hn. cbn beta iota.
      rewrite run_bind, run_perform, Hi. cbn beta iota.
      destruct (IH (<[n := mgr]> set)
                  (mkWorld (warnings w) (calls w ++ [CallManagerClass mc])))
        as [set' Hrun].
      exists set'. rewrite Hrun. unfold after_calls. cbn [warnings calls fmap list_fmap].
      rewrite <- app_assoc. reflexivity.
    + apply IH.
Qed.

(** X15.  Over a list of descriptors that can be loaded, the extensions
    are loaded to the end: the manager classes that are truthy are
    called, each once and in the order of the list, and nothing else is
    contacted. *)
Theorem extensions_are_instantiated_in_order env l w :
  Forall (loadable env) l ->
  exists set,
    run (_load_extensions env (VList l)) w =
    (Ok set, after_calls w (CallManagerClass <$> omap (called_manager_class env) l)).
Proof.
  intros Hl. destruct l as [| x l].
  - exists ∅. cbn. unfold after_calls. rewrite app_nil_r. destruct w; reflexivity.
  - apply (load_each_loadable env (x :: l) ∅ w Hl).
Qed.

Lemma extensions_are_instantiated_in_order_witness :
  exists set,
    run (_load_extensions extension_env (VList [VObj 0; VObj 1; VObj 2]))
        empty_world =
    (Ok set, mkWorld [] [CallManagerClass (VObj 10); CallManagerClass (VObj 12)]).
Proof.
  apply (extensions_are_instantiated_in_order extension_env
           [VObj 0; VObj 1; VObj 2] empty_world).
  repeat constructor.
  - exists 0%nat, (VObj 10). repeat split. intros _.
    exists "alpha", (VObj 110). split; reflexivity.
  - exists 1%nat, VNone. repeat split. intros Hf. discriminate Hf.
  - exists 2%nat, (VObj 12). repeat split. intros _.
    exists "gamma", (VObj 112). split; reflexivity.
Defined.

(** ** The deprecation warnings once more *)

(** X16, at [Client(os_cache=True, input_auth_token='token',
    distil_url='http://distil')]. *)
Lemma deprecated_kwarg_warned_once_witness :
  length (filter (fun m => m = "Argument os_cache is deprecated. Use use_keyring instead.")
            (deprecation_warnings (Arg.kwargs os_cache_args))) = 1%nat.
Proof.
  apply (deprecated_kwarg_warned_once os_cache_args "os_cache"
           (Some "use_keyring") (VBool true)).
  - do 3 apply list_elem_of_further. apply list_elem_of_here.
  - discriminate.
  - reflexivity.
  - reflexivity.
Defined.

(** X17.  An invocation that supplies none of the deprecated keywords, or
    supplies them as [None], is not warned at all, whatever other
    keywords it passes and however the constructor ends: unknown
    keywords are accepted in silence. *)
Theorem no_deprecated_keyword_no_warning env args w :
  (forall name, name ∈ deprecated_keywords ->
                is_None (param args name VNone) = true) ->
  warnings (run (Client_init env args) w).2 = warnings w.
Proof.
  intros Hnone.
  destruct (run (Client_init env args) w) as [r w'] eqn:Hr.
  destruct (Client_init_logs env args w r w' Hr) as [Hw _]. cbn [snd].
  rewrite Hw.
  assert (Hk : forall name, name ∈ deprecated_keywords ->
               is_None (dict_get (Arg.kwargs args) name VNone) = true).
  { intros name Hin. unfold dict_get. rewrite kwargs_other.
    - apply (Hnone name Hin).
    - intros Hp.
      repeat (apply elem_of_cons in Hin as [-> | Hin]; [revert Hp; compute_done |]).
      apply elem_of_nil in Hin. exact Hin. }
  unfold deprecation_warnings, deprecated. cbn [omap list_omap].
  rewrite (api_key_not_in_kwargs args).
  rewrite !Hk by (unfold deprecated_keywords; set_solver).
  apply app_nil_r.
Qed.

Lemma no_deprecated_keyword_no_warning_witness :
  warnings (run (Client_init failing_env unknown_keyword_args) empty_world).2 = [].
Proof.
  apply (no_deprecated_keyword_no_warning failing_env unknown_keyword_args
           empty_world).
  intros name Hin.
  repeat (apply elem_of_cons in Hin as [-> | Hin]; [reflexivity |]).
  apply elem_of_nil in Hin. destruct Hin.
Defined.

(** ** [Client.authenticate] *)

(** The method only warns: it contacts nobody. *)
Lemma Client_authenticate_only_warns c w :
  exists msg,
    run (Client_authenticate c) w = (Ok tt, mkWorld (warnings w ++ [msg]) (calls w)).
Proof. eexists. reflexivity. Qed.

(** ** distilclient/exceptions.py *)

Lemma append_inv_tail (s1 s2 t : string) : s1 +:+ t = s2 +:+ t -> s1 = s2.
Proof.
  assert (Hlen : forall a b : string,
            String.length (a +:+ b) = (String.length a + String.length b)%nat).
  { intros a b. induction a as [| c a IH]; [reflexivity |].
    change (S (String.length (a +:+ b))
            = S (String.length a + String.length b)).
    f_equal. exact IH. }
  revert s2. induction s1 as [| c1 s1 IH]; intros [| c2 s2] Heq.
  - reflexivity.
  - apply (f_equal String.length) in Heq. rewrite !Hlen in Heq.
    cbn [String.length] in Heq. lia.
  - apply (f_equal String.length) in Heq. rewrite !Hlen in Heq.
    cbn [String.length] in Heq. lia.
  - change (String c1 (s1 +:+ t) = String c2 (s2 +:+ t)) in Heq.
    injection Heq as -> Heq. f_equal. apply IH. exact Heq.
Qed.

(** X18.  The message of [VersionNotFoundForAPIMethod] tells the printed
    form of the version and no more: two such exceptions print the same
    message exactly when their versions print alike under [%s], so the
    versions 2 and '2' are not told apart, while two versions that are
    strings give the same message only if they are the same string. *)
Theorem version_not_found_message_names_the_printed_version
    (str : value -> string) (e1 e2 : exceptions.VersionNotFoundForAPIMethod) :
  (exceptions.__str__ str e1 = exceptions.__str__ str e2
   <-> str (exceptions.version e1) = str (exceptions.version e2))
  /\ ((forall s, str (VStr s) = s) ->
      forall s1 s2,
        exceptions.version e1 = VStr s1 ->
        exceptions.version e2 = VStr s2 ->
        exceptions.__str__ str e1 = exceptions.__str__ str e2 ->
        e1 = e2).
Proof.
  assert (Hiff : exceptions.__str__ str e1 = exceptions.__str__ str e2
                 <-> str (exceptions.version e1) = str (exceptions.version e2)).
  { unfold exceptions.__str__. split.
    - intros Heq. apply (inj (String.app "API version '")) in Heq.
      apply append_inv_tail in Heq. exact Heq.
    - intros ->. reflexivity. }
  split; [exact Hiff |].
  intros Hstr s1 s2 H1 H2 Heq. apply Hiff in Heq.
  rewrite H1, H2, !Hstr in Heq.
  destruct e1 as [v1], e2 as [v2]. cbn [exceptions.version] in H1, H2.
  rewrite H1, H2, Heq. reflexivity.
Qed.

(** X18, at the versions 2 and '2', which print alike and differ, and at
    the versions '1' and '2', which do not print alike. *)
Lemma version_not_found_message_names_the_printed_version_witness :
  exceptions.__str__ sample_str (exceptions.mkVersionNotFoundForAPIMethod (VInt 2))
  = exceptions.__str__ sample_str
      (exceptions.mkVersionNotFoundForAPIMethod (VStr API_MIN_VERSION))
  /\ exceptions.mkVersionNotFoundForAPIMethod (VInt 2)
     <> exceptions.mkVersionNotFoundForAPIMethod (VStr API_MIN_VERSION)
  /\ exceptions.__str__ sample_str
       (exceptions.mkVersionNotFoundForAPIMethod (VStr API_MAX_VERSION))
     <> exceptions.__str__ sample_str
          (exceptions.mkVersionNotFoundForAPIMethod (VStr API_MIN_VERSION)).
Proof.
  split; [| split].
  - apply (version_not_found_message_names_the_printed_version sample_str
             (exceptions.mkVersionNotFoundForAPIMethod (VInt 2))
             (exceptions.mkVersionNotFoundForAPIMethod (VStr API_MIN_VERSION))).
    reflexivity.
  - discriminate.
  - intros Heq.
    apply (version_not_found_message_names_the_printed_version sample_str
             (exceptions.mkVersionNotFoundForAPIMethod (VStr API_MAX_VERSION))
             (exceptions.mkVersionNotFoundForAPIMethod (VStr API_MIN_VERSION)))
      in Heq.
    discriminate Heq.
Defined.
